(** * Project Samarth: the bounded retry-and-repair loop of the Text-to-SQL agent

    A shallow embedding of [local_langgraph_agent.py] (the three graph nodes,
    the conditional edge and the graph wiring of [get_agent_app]) together
    with the caller's initial inputs from [streamlit_app.py], and the
    properties of the specification proved or refuted against it.

    Modelling conventions.
    - A Python [str] is a Rocq [string]; a character is a code point below
      256, so [len] is [String.length].  [isspace] and [lower] are Python's
      on that range.
    - A Python [int] is a [Z].
    - The graph state [AgentState] is a record; what a node returns (a
      partial dict) is an [Update], merged key by key into the state.
    - The two collaborators, [llm.invoke] and [db.run], are oracles over the
      history of calls made so far: either one returns text or raises an
      [Exception] with a message.  Every call is appended to the history,
      so that "the store was not touched" is a statement about the history.
    - The graph is run by an external engine (LangGraph's [StateGraph]).
      [run] follows the wiring of [get_agent_app].  The engine keeps the
      state in channels: a node's returned dict is written to them, and
      the dict handed to the conditional edge is assembled from them
      afresh, so the assignment the edge makes to it is dropped
      ([ChannelCopy]).  The reading in which the assignment would reach
      the next node ([SharedState]) is kept as the second value of the
      parameter [engine]; a property stated for every [engine] holds in
      particular of the engine as it is.
    - The engine counts the steps it runs against the caller's
      [recursion_limit]: a run ends normally only if it reaches END in
      fewer steps than the limit; once the limit's last step has run,
      [stream] raises [GraphRecursionError].
    - [print] calls are logging only and are left out. *)

From Stdlib Require Import String Ascii List ZArith Lia Bool Arith Sorted.
Import ListNotations.

Local Open Scope string_scope.

(* ================================================================= *)
(** ** Python string primitives *)

Module PyStr.

(** [str.isspace] on one character, for code points below 256:
    TAB..CR, FS..US, SPACE, NEL (0x85) and NBSP (0xA0). *)
Definition isspace (c : ascii) : bool :=
  let n := nat_of_ascii c in
  (((9 <=? n) && (n <=? 13)) || ((28 <=? n) && (n <=? 32))
   || (n =? 133) || (n =? 160))%nat.

(** [str.lstrip()], [str.rstrip()] and [str.strip()] without argument. *)
Fixpoint lstrip (s : string) : string :=
  match s with
  | EmptyString => EmptyString
  | String c r => if isspace c then lstrip r else s
  end.

Fixpoint rstrip (s : string) : string :=
  match s with
  | EmptyString => EmptyString
  | String c r =>
      match rstrip r with
      | EmptyString => if isspace c then EmptyString else String c EmptyString
      | r' => String c r'
      end
  end.

Definition strip (s : string) : string := rstrip (lstrip s).

(** [str.lower()] on one character: A-Z, and the upper-case letters of
    the range 0xC0..0xDE apart from the multiplication sign 0xD7. *)
Definition lower_char (c : ascii) : ascii :=
  let n := nat_of_ascii c in
  if (((65 <=? n) && (n <=? 90))
      || ((192 <=? n) && (n <=? 222) && negb (n =? 215)))%nat
  then ascii_of_nat (n + 32) else c.

Fixpoint lower (s : string) : string :=
  match s with
  | EmptyString => EmptyString
  | String c r => String (lower_char c) (lower r)
  end.

(** [s.startswith(p)]. *)
Definition startswith (s p : string) : bool := String.prefix p s.

(** [s.startswith((p1, ..., pn))]: a tuple of prefixes. *)
Definition startswith_any (s : string) (ps : list string) : bool :=
  existsb (startswith s) ps.

(** [p in s]: substring test. *)
Fixpoint str_in (p s : string) : bool :=
  String.prefix p s ||
  match s with
  | EmptyString => false
  | String _ r => str_in p r
  end.

(** [s.replace(old, new)] for a non-empty [old]: every occurrence found
    scanning left to right, without overlap.  [skip] counts the
    characters of a matched occurrence still to be dropped. *)
Fixpoint replace_from (old new : string) (skip : nat) (s : string) : string :=
  match s with
  | EmptyString => EmptyString
  | String c r =>
      match skip with
      | S k => replace_from old new k r
      | O =>
          if String.prefix old s
          then new ++ replace_from old new (String.length old - 1) r
          else String c (replace_from old new 0 r)
      end
  end.

(** With an empty [old], Python inserts [new] before every character and
    at the end. *)
Fixpoint intersperse (new s : string) : string :=
  match s with
  | EmptyString => new
  | String c r => new ++ String c (intersperse new r)
  end.

Definition replace (s old new : string) : string :=
  match old with
  | EmptyString => intersperse new s
  | _ => replace_from old new 0 s
  end.

(** Truthiness of a string: [not s] holds of the empty string only. *)
Definition truthy (s : string) : bool := negb (s =? "").

Definition nl : string := String (ascii_of_nat 10) EmptyString.

(** [a] and [b] are the same character up to the case of an ASCII
    letter. *)
Definition same_letter (a b : ascii) : bool :=
  let na := nat_of_ascii a in
  let nb := nat_of_ascii b in
  ((na =? nb)
   || ((65 <=? na) && (na <=? 90) && (na + 32 =? nb))
   || ((65 <=? nb) && (nb <=? 90) && (nb + 32 =? na)))%nat.

(** [s] begins with [v], ignoring the case of ASCII letters. *)
Fixpoint ci_prefix (v s : string) : bool :=
  match v, s with
  | EmptyString, _ => true
  | String a v', String b s' => same_letter a b && ci_prefix v' s'
  | String _ _, EmptyString => false
  end.

(** [c] is one of a..z. *)
Definition is_lower_letter (c : ascii) : bool :=
  let n := nat_of_ascii c in ((97 <=? n) && (n <=? 122))%nat.

Fixpoint all_lower_letters (p : string) : bool :=
  match p with
  | EmptyString => true
  | String c r => is_lower_letter c && all_lower_letters r
  end.

(** [c] is neither white space nor the first character of a token that
    Execution's re-cleaning deletes. *)
Definition inert_char (c : ascii) : bool :=
  negb (isspace c) && negb (c =? "*")%char && negb (c =? "`")%char.

Fixpoint inert (p : string) : bool :=
  match p with
  | EmptyString => true
  | String c r => inert_char c && inert r
  end.

(** [c] does not occur in [p]. *)
Fixpoint absent (c : ascii) (p : string) : bool :=
  match p with
  | EmptyString => true
  | String a r => negb (a =? c)%char && absent c r
  end.

(** Every character of [w] is white space. *)
Fixpoint all_space (w : string) : bool :=
  match w with
  | EmptyString => true
  | String c r => isspace c && all_space r
  end.

(** No character of [p] is white space. *)
Fixpoint no_space (p : string) : bool :=
  match p with
  | EmptyString => true
  | String c r => negb (isspace c) && no_space r
  end.

End PyStr.

Import PyStr.

(* ================================================================= *)
(** ** Sanitization and validation of generated SQL *)

(** The chain of [generate_sql_node], applied to the (already stripped)
    model output. *)
Definition sanitize_sql (sql_query : string) : string :=
  strip
    (replace
       (replace
          (replace
             (replace (strip sql_query) "```sql" "")
             "```" "")
          "*/" "")
       "SQL:" "").

(** The four [replace] passes of the chain, without the two [strip]s. *)
Definition delete_tokens (s : string) : string :=
  replace (replace (replace (replace s "```sql" "") "```" "") "*/" "") "SQL:" "".

Definition SQL_VERBS : list string :=
  ["select"; "insert"; "update"; "delete"; "create"].

(** The rejection test of [generate_sql_node]:
    [not sql_query or len(sql_query) < 10 or not
     sql_query.lower().startswith((...))]. *)
Definition invalid_sql (sql_query : string) : bool :=
  negb (truthy sql_query)
  || (String.length sql_query <? 10)%nat
  || negb (startswith_any (lower sql_query) SQL_VERBS).

(** The verbs as the specification spells them. *)
Definition SPEC_VERBS : list string :=
  ["SELECT"; "INSERT"; "UPDATE"; "DELETE"; "CREATE"].

Definition starts_with_verb_ci (s : string) : bool :=
  existsb (fun v => ci_prefix v s) SPEC_VERBS.

(** The tokens the chain deletes, in the order of its passes. *)
Definition SANITIZED_TOKENS : list string := ["```sql"; "```"; "*/"; "SQL:"].

(** The re-cleaning of [execute_sql_node]:
    [query.strip().replace("*/", "").replace("```", "").strip()]. *)
Definition reclean_sql (query : string) : string :=
  strip (replace (replace (strip query) "*/" "") "```" "").

Definition fenced (body : string) : string :=
  "```sql" ++ nl ++ body ++ nl ++ "```".

(* ================================================================= *)
(** ** Graph state, updates and collaborators *)

(** [class AgentState(TypedDict)].  [data] and [answer] are
    [Optional[str]]. *)
Record AgentState : Type := mkState {
  question : string;
  schema : string;
  sql_query : string;
  data : option string;
  answer : option string;
  retries : Z
}.

(** The dict a node returns: only the keys it sets. *)
Record Update : Type := mkUpdate {
  set_sql_query : option string;
  set_data : option string;
  set_answer : option string;
  set_retries : option Z
}.

(** Writing a node's update into the state, key by key. *)
Definition merge (state : AgentState) (u : Update) : AgentState :=
  {| question := question state;
     schema := schema state;
     sql_query := match set_sql_query u with Some q => q | None => sql_query state end;
     data := match set_data u with Some d => Some d | None => data state end;
     answer := match set_answer u with Some a => Some a | None => answer state end;
     retries := match set_retries u with Some r => r | None => retries state end |}.

(** The in-place assignment [state["retries"] = r]. *)
Definition assign_retries (state : AgentState) (r : Z) : AgentState :=
  {| question := question state; schema := schema state;
     sql_query := sql_query state; data := data state;
     answer := answer state; retries := r |}.

(** One call to a collaborator, and what came back. *)
Inductive call : Type :=
| LLMInvoke (prompt : string)
| DBRun (query : string).

Definition history : Type := list call.

Inductive outcome : Type :=
| Returned (text : string)
| Raised (detail : string).

(** Computations that call collaborators thread the history. *)
Definition M (A : Type) : Type := history -> A * history.

Definition ret {A : Type} (a : A) : M A := fun h => (a, h).

Definition bind {A B : Type} (m : M A) (k : A -> M B) : M B :=
  fun h => let (a, h') := m h in k a h'.

Notation "x <- m ;; k" := (bind m (fun x => k))
  (at level 61, m at next level, right associativity).

(** What a Python call evaluates to when it may raise. *)
Inductive py (A : Type) : Type :=
| Ok (a : A)
| Exn (msg : string).
Arguments Ok {A} a.
Arguments Exn {A} msg.

(** The label returned by the conditional edge. *)
Inductive route : Type := retry | synthesize.

(** The nodes added by [get_agent_app]. *)
Inductive node : Type := generate_sql | execute_sql | synthesize_answer.

Definition count_DBRun (h : history) : nat :=
  List.length (filter (fun c => match c with DBRun _ => true | _ => false end) h).

(** [f"{x}"] of an [Optional[str]]. *)
Definition format_opt (x : option string) : string :=
  match x with Some s => s | None => "None" end.

(** The fixed instruction of the generation prompt.  The dash of the
    source (U+2014) is kept as the bytes the file holds; prompts are
    handed to the model uninterpreted. *)
Definition system_prompt : string :=
  "You are a SQL generator. Your only job is to write SQL queries — "
  ++ "no text, no explanation, no markdown. "
  ++ "You will be given a database schema and a natural language question. "
  ++ "Your response must contain only one valid SQL query ending with a semicolon. "
  ++ "The query must use only tables and columns present in the given schema. "
  ++ "Do NOT include ```sql or ``` anywhere.".

(** The prompt of [generate_sql_node], with the correction request
    appended when [last_error and "Error:" in last_error]. *)
Definition generation_prompt (state : AgentState) : string :=
  let prompt :=
    nl ++ system_prompt ++ nl
    ++ nl ++ "Database Schema:" ++ nl
    ++ schema state ++ nl
    ++ nl ++ "User Question:" ++ nl
    ++ question state ++ nl in
  match data state with
  | Some last_error =>
      if truthy last_error && str_in "Error:" last_error
      then prompt ++ nl ++ "The previous query failed with this error: "
           ++ last_error ++ nl ++ "Please correct and output only SQL."
      else prompt
  | None => prompt
  end.

(** The prompt of [synthesize_answer_node]. *)
Definition synthesis_prompt (state : AgentState) : string :=
  nl ++ "You are a data analyst. The user asked a question and the database returned this data." ++ nl
  ++ nl ++ "User Question:" ++ nl
  ++ question state ++ nl
  ++ nl ++ "Database Result:" ++ nl
  ++ format_opt (data state) ++ nl
  ++ nl ++ "Write a clear, concise answer summarizing the result." ++ nl
  ++ "- If data is empty or contains an error, explain that politely." ++ nl
  ++ "- Do not add information not in the data." ++ nl.

(** [should_continue_or_retry]: the label, and the state dict as the
    function leaves it ([state["retries"] = retries + 1] on the retry
    branch).  With [data] being [None] the test ["Error:" in data] raises
    a [TypeError]; the budget test comes first. *)
Definition should_continue_or_retry (state : AgentState)
  : py (route * AgentState) :=
  if (retries state >=? 3)%Z then Ok (synthesize, state)
  else
    match data state with
    | None => Exn "TypeError: argument of type 'NoneType' is not iterable"
    | Some d =>
        if str_in "Error:" d
        then Ok (retry, assign_retries state (retries state + 1))
        else Ok (synthesize, state)
    end.

(** How the dict handed to the conditional edge is treated.
    [ChannelCopy] is the engine: the dict is a copy assembled from the
    state channels and the edge's assignment is dropped.  [SharedState]
    is the reading in which the dict is the Loop State itself, so that
    the edge's assignment would be what the next node reads. *)
Inductive engine : Type := SharedState | ChannelCopy.

(** One step of the graph as [stream] reports it: the node that ran, the
    update it returned, and the Loop State the next node will read. *)
Record superstep : Type := mkStep {
  ran : node;
  returned : Update;
  after : AgentState
}.

Inductive run_result : Type :=
| Finished (final : AgentState)
| GraphRecursionError
| EdgeRaised (msg : string).

Section Agent.

(** The model backend and the relational store. *)
Variable llm : history -> string -> outcome.
Variable db : history -> string -> outcome.
(** [DATABASE_SCHEMA], read once from the store at start-up. *)
Variable DATABASE_SCHEMA : string.

(** [llm.invoke(prompt).content] and [db.run(query)]. *)
Definition llm_invoke (prompt : string) : M outcome :=
  fun h => (llm h prompt, (h ++ [LLMInvoke prompt])%list).

Definition db_run (query : string) : M outcome :=
  fun h => (db h query, (h ++ [DBRun query])%list).

Definition generate_sql_node (state : AgentState) : M Update :=
  let r := retries state in
  o <- llm_invoke (generation_prompt state) ;;
  match o with
  | Returned content =>
      let sql := sanitize_sql (strip content) in
      if invalid_sql sql
      then ret {| set_sql_query := Some "";
                  set_data := Some "Error: Invalid SQL generated.";
                  set_answer := None;
                  set_retries := Some r |}
      else ret {| set_sql_query := Some sql;
                  set_data := None;
                  set_answer := None;
                  set_retries := Some r |}
  | Raised e =>
      ret {| set_sql_query := Some "";
             set_data := Some ("Error during SQL generation: " ++ e);
             set_answer := None;
             set_retries := Some r |}
  end.

Definition execute_sql_node (state : AgentState) : M Update :=
  let r := retries state in
  let query := sql_query state in
  if negb (truthy query)
  then ret {| set_sql_query := None;
              set_data := Some "Error: No valid SQL to execute.";
              set_answer := None;
              set_retries := Some r |}
  else
    let query := reclean_sql query in
    if negb (startswith_any (lower query) SQL_VERBS)
    then ret {| set_sql_query := None;
                set_data := Some "Error: Invalid SQL, stopping execution.";
                set_answer := None;
                set_retries := Some r |}
    else
      o <- db_run query ;;
      match o with
      | Returned result =>
          ret {| set_sql_query := None;
                 set_data := Some result;
                 set_answer := None;
                 set_retries := Some r |}
      | Raised e =>
          ret {| set_sql_query := None;
                 set_data := Some ("Error: " ++ e);
                 set_answer := None;
                 set_retries := Some r |}
      end.

Definition synthesize_answer_node (state : AgentState) : M Update :=
  o <- llm_invoke (synthesis_prompt state) ;;
  match o with
  | Returned content =>
      ret {| set_sql_query := None;
             set_data := None;
             set_answer := Some (strip content);
             set_retries := Some (retries state) |}
  | Raised e =>
      ret {| set_sql_query := None;
             set_data := None;
             set_answer := Some ("Error synthesizing answer: " ++ e);
             set_retries := Some (retries state) |}
  end.

(** The compiled graph of [get_agent_app]: entry point [generate_sql],
    edge [generate_sql -> execute_sql], the conditional edge out of
    [execute_sql], and [synthesize_answer -> END].  [limit] is the
    caller's recursion ceiling, counted in node executions: when the
    step that uses it up has run, the run ends in [GraphRecursionError],
    also if that step was Synthesis. *)
Fixpoint run (eng : engine) (limit : nat) (n : node) (state : AgentState)
  : M (list superstep * run_result) :=
  match limit with
  | O => ret ([], GraphRecursionError)
  | S limit' =>
      match n with
      | generate_sql =>
          u <- generate_sql_node state ;;
          let state' := merge state u in
          rest <- run eng limit' execute_sql state' ;;
          ret (mkStep generate_sql u state' :: fst rest, snd rest)
      | execute_sql =>
          u <- execute_sql_node state ;;
          let state' := merge state u in
          match should_continue_or_retry state' with
          | Exn msg => ret ([mkStep execute_sql u state'], EdgeRaised msg)
          | Ok (label, mutated) =>
              let next_state :=
                match eng with SharedState => mutated | ChannelCopy => state' end in
              let next :=
                match label with
                | synthesize => synthesize_answer
                | retry => generate_sql
                end in
              rest <- run eng limit' next next_state ;;
              ret (mkStep execute_sql u next_state :: fst rest, snd rest)
          end
      | synthesize_answer =>
          u <- synthesize_answer_node state ;;
          let state' := merge state u in
          ret ([mkStep synthesize_answer u state'],
               match limit' with
               | O => GraphRecursionError
               | S _ => Finished state'
               end)
      end
  end.

(** The [inputs] dict the caller builds for a question. *)
Definition inputs (q : string) : AgentState :=
  {| question := q; schema := DATABASE_SCHEMA; sql_query := "";
     data := Some ""; answer := Some ""; retries := 0 |}.

(** [agent_app.stream(inputs, {"recursion_limit": limit})], from a fresh
    history. *)
Definition stream (eng : engine) (limit : nat) (q : string)
  : (list superstep * run_result) * history :=
  run eng limit generate_sql (inputs q) [].

End Agent.

Definition node_eqb (a b : node) : bool :=
  match a, b with
  | generate_sql, generate_sql => true
  | execute_sql, execute_sql => true
  | synthesize_answer, synthesize_answer => true
  | _, _ => false
  end.

(** How often a node ran in a trace. *)
Definition invocations (n : node) (trace : list superstep) : nat :=
  List.length (filter (node_eqb n) (map ran trace)).

(** [r], then the values of [l], never go down. *)
Fixpoint climbs (r : Z) (l : list Z) : Prop :=
  match l with
  | [] => True
  | x :: l' => (r <= x)%Z /\ climbs x l'
  end.

(** The nodes a run visits from [n] in [k] steps while every round is
    sent back to Generation. *)
Fixpoint ping_pong (n : node) (k : nat) : list node :=
  match k with
  | O => []
  | S k' =>
      n :: ping_pong (match n with
                      | generate_sql => execute_sql
                      | _ => generate_sql
                      end) k'
  end.

(** *** Collaborator stubs *)

(** A model that answers every prompt with the same text. *)
Definition llm_always (text : string) : history -> string -> outcome :=
  fun _ _ => Returned text.

(** A store whose first [n] executions raise and whose later ones
    return [rows]. *)
Definition db_fails_first (n : nat) (rows : string)
  : history -> string -> outcome :=
  fun h _ =>
    if (count_DBRun h <? n)%nat then Raised "no such table: crops"
    else Returned rows.

(** A model that answers generation prompts with [sql] and synthesis
    prompts with [prose]. *)
Definition llm_scripted (sql prose : string) : history -> string -> outcome :=
  fun _ prompt =>
    if str_in "You are a SQL generator." prompt then Returned sql
    else Returned prose.

(** A model that cannot be reached: every call raises. *)
Definition llm_down (detail : string) : history -> string -> outcome :=
  fun _ _ => Raised detail.

(** A state as Execution may receive it. *)
Definition state_with_sql (q : string) : AgentState :=
  {| question := "Top 5 rice producing districts in Bihar in 2010?";
     schema := "CREATE TABLE crops (state TEXT, year INTEGER, rice REAL)";
     sql_query := q; data := Some ""; answer := Some ""; retries := 0 |}.

(** A state as the edge may receive it. *)
Definition state_with_data (d : string) (r : Z) : AgentState :=
  {| question := "Top 5 rice producing districts in Bihar in 2010?";
     schema := "CREATE TABLE crops (state TEXT, year INTEGER, rice REAL)";
     sql_query := "SELECT state FROM crops;"; data := Some d;
     answer := Some ""; retries := r |}.

(** The caller's ceiling in [streamlit_app.py]. *)
Definition RECURSION_LIMIT : nat := 10.

(** The retry budget: the constant of [should_continue_or_retry]. *)
Definition RETRY_BUDGET : Z := 3.

(* ================================================================= *)
(** ** The graph's edges, call counts and the caller *)

Definition count_LLMInvoke (h : history) : nat :=
  List.length (filter (fun c => match c with LLMInvoke _ => true | _ => false end) h).

(** The edges [get_agent_app] adds: [generate_sql -> execute_sql], and
    the two targets of the conditional edge out of [execute_sql].
    [synthesize_answer] leads to END only. *)
Definition edge (a b : node) : bool :=
  match a, b with
  | generate_sql, execute_sql => true
  | execute_sql, generate_sql => true
  | execute_sql, synthesize_answer => true
  | _, _ => false
  end.

(** [path] is a walk of the graph that starts at [n] (or is empty). *)
Fixpoint walk (n : node) (path : list node) : bool :=
  match path with
  | [] => true
  | m :: rest =>
      node_eqb n m
      && match rest with
         | [] => true
         | k :: _ => edge m k && walk k rest
         end
  end.

(** [c] is one of A..Z. *)
Definition is_upper_letter (c : ascii) : bool :=
  let n := nat_of_ascii c in ((65 <=? n) && (n <=? 90))%nat.

Fixpoint all_upper_letters (p : string) : bool :=
  match p with
  | EmptyString => true
  | String c r => is_upper_letter c && all_upper_letters r
  end.

(** The state with [data] cleared: its generation prompt is the prompt
    without a correction request. *)
Definition without_data (state : AgentState) : AgentState :=
  {| question := question state; schema := schema state;
     sql_query := sql_query state; data := None;
     answer := answer state; retries := retries state |}.

(** The request appended to the generation prompt after a failure. *)
Definition correction_request (last_error : string) : string :=
  nl ++ "The previous query failed with this error: "
  ++ last_error ++ nl ++ "Please correct and output only SQL.".

(** The messages of the input handler of [streamlit_app.py] (their
    symbols kept as the bytes the file holds). *)
Definition NO_ANSWER : string :=
  "⚠️ I'm sorry, I couldn't generate an answer. Please try again.".

Definition DEPTH_EXCEEDED : string :=
  "⚠️ The agent exceeded its reasoning depth after multiple retries. Try rephrasing your question.".

Definition OLLAMA_UNREACHABLE : string :=
  "🚫 Cannot reach the local Ollama model. Please ensure Ollama is running.".

Definition UNEXPECTED_ERROR : string := "❌ Unexpected error: ".

(** The value [final_state] holds when the [for] loop over [stream]
    ends: the last step yielded, [{}] when there was none. *)
Definition final_step (trace : list superstep) : option superstep :=
  List.last (map Some trace) None.

(** The answer the input handler displays.  When [stream] ends
    normally, it is read from the last step yielded; when an exception
    leaves [stream], [error_str] is its [str(e)]. *)
Definition displayed_answer (error_str : string)
  (res : list superstep * run_result) : string :=
  match snd res with
  | Finished _ =>
      match final_step (fst res) with
      | Some s =>
          if node_eqb (ran s) synthesize_answer
          then match set_answer (returned s) with Some a => a | None => "" end
          else NO_ANSWER
      | None => NO_ANSWER
      end
  | GraphRecursionError | EdgeRaised _ =>
      if str_in "GraphRecursionError" error_str then DEPTH_EXCEEDED
      else if str_in "Connection refused" error_str then OLLAMA_UNREACHABLE
      else UNEXPECTED_ERROR ++ error_str
  end.

(* ================================================================= *)
(** ** The model on concrete inputs *)

Example replace_scans_left_to_right : replace "````" "```" "" = "`".
Proof. reflexivity. Qed.

Example replace_may_leave_a_token : replace "**//" "*/" "" = "*/".
Proof. reflexivity. Qed.

Example replace_empty_old : replace "abc" "" "-" = "-a-b-c-".
Proof. reflexivity. Qed.

Example strip_both_ends : strip (nl ++ "  a b " ++ nl) = "a b".
Proof. reflexivity. Qed.

Example lower_ascii : lower "SeLeCt * FROM T" = "select * from t".
Proof. reflexivity. Qed.

Example generation_failure_has_no_marker :
  str_in "Error:" "Error during SQL generation: Connection refused" = false.
Proof. reflexivity. Qed.

Example sanitize_label_and_fence :
  sanitize_sql (strip ("SQL: ```" ++ nl ++ "SELECT * FROM crops; */" ++ nl ++ "```"))
  = "SELECT * FROM crops;".
Proof. reflexivity. Qed.

Example validation_samples :
  invalid_sql "SELECT 1;" = true
  /\ invalid_sql "select 10;" = false
  /\ invalid_sql "DROP TABLE crops;" = true
  /\ invalid_sql "" = true.
Proof. repeat split. Qed.

(** A store that fails twice, under both readings of the engine: the
    same seven steps, and [retries] ending at 2 when the edge's
    assignment is kept, at 0 when it is dropped. *)
Example store_fails_twice_shared :
  let r := stream (llm_always "SELECT state FROM crops;")
             (db_fails_first 2 "[('Bihar',)]") "" SharedState RECURSION_LIMIT
             "Which states grow rice?" in
  map ran (fst (fst r))
  = [generate_sql; execute_sql; generate_sql; execute_sql;
     generate_sql; execute_sql; synthesize_answer]
  /\ snd (fst r)
     = Finished {| question := "Which states grow rice?"; schema := "";
                   sql_query := "SELECT state FROM crops;";
                   data := Some "[('Bihar',)]";
                   answer := Some "SELECT state FROM crops;";
                   retries := 2 |}.
Proof. split; vm_compute; reflexivity. Qed.

Example store_fails_twice_copy :
  let r := stream (llm_always "SELECT state FROM crops;")
             (db_fails_first 2 "[('Bihar',)]") "" ChannelCopy RECURSION_LIMIT
             "Which states grow rice?" in
  map ran (fst (fst r))
  = [generate_sql; execute_sql; generate_sql; execute_sql;
     generate_sql; execute_sql; synthesize_answer]
  /\ snd (fst r)
     = Finished {| question := "Which states grow rice?"; schema := "";
                   sql_query := "SELECT state FROM crops;";
                   data := Some "[('Bihar',)]";
                   answer := Some "SELECT state FROM crops;";
                   retries := 0 |}.
Proof. split; vm_compute; reflexivity. Qed.

(* ================================================================= *)
(** ** Facts about the string primitives *)

Section StringFacts.

Lemma str_in_nil (p : string) : str_in p "" = String.prefix p "".
Proof. unfold str_in. apply orb_false_r. Qed.

Lemma str_in_cons (p : string) (c : ascii) (s : string) :
  str_in p (String c s) = String.prefix p (String c s) || str_in p s.
Proof. reflexivity. Qed.

Lemma prefix_app (p r : string) : String.prefix p (p ++ r) = true.
Proof.
  induction p as [|c p IH]; simpl.
  - destruct r; reflexivity.
  - destruct (ascii_dec c c); [exact IH | congruence].
Qed.

Lemma prefix_split (p s : string) :
  String.prefix p s = true -> exists r, s = p ++ r.
Proof.
  revert s; induction p as [|c p IH]; intros s H.
  - exists s; reflexivity.
  - destruct s as [|d s]; simpl in H; [discriminate|].
    destruct (ascii_dec c d) as [->|]; [|discriminate].
    destruct (IH _ H) as [r ->]. exists r; reflexivity.
Qed.

Lemma prefix_empty (p : string) : p <> "" -> String.prefix p "" = false.
Proof. destruct p; [congruence | reflexivity]. Qed.

(** [p in s] holds exactly when [s] reads [a ++ p ++ b]. *)
Lemma str_in_occurs (p s : string) :
  str_in p s = true <-> exists a b, s = a ++ p ++ b.
Proof.
  split.
  - induction s as [|c s IH]; intros H.
    + rewrite str_in_nil in H. destruct (prefix_split _ _ H) as [r Hr].
      exists "", r. exact Hr.
    + rewrite str_in_cons in H. apply orb_true_iff in H as [H|H].
      * destruct (prefix_split _ _ H) as [r Hr]. exists "", r. exact Hr.
      * destruct (IH H) as (a & b & ->). exists (String c a), b. reflexivity.
  - intros (a & b & ->). induction a as [|c a IH].
    + change ("" ++ p ++ b) with (p ++ b).
      destruct (p ++ b) eqn:E.
      * rewrite str_in_nil, <- E. apply prefix_app.
      * rewrite str_in_cons, <- E, prefix_app. reflexivity.
    + change (String c a ++ p ++ b) with (String c (a ++ p ++ b)).
      rewrite str_in_cons, IH. apply orb_true_r.
Qed.

Lemma replace_from_length (old : string) (s : string) :
  forall k, String.length (replace_from old "" k s) <= String.length s - k.
Proof.
  induction s as [|c s IH]; intros k; [simpl; lia|].
  cbn [replace_from]. destruct k as [|k].
  - destruct (String.prefix old (String c s)).
    + specialize (IH (String.length old - 1)).
      cbn [append String.length]. lia.
    + specialize (IH 0). cbn [String.length]. lia.
  - cbn [String.length]. apply IH.
Qed.

Lemma replace_from_hit (old s : string) :
  old <> "" -> str_in old s = true ->
  String.length (replace_from old "" 0 s) < String.length s.
Proof.
  intros Hold. induction s as [|c s IH]; intros H.
  - rewrite str_in_nil, prefix_empty in H by assumption. discriminate.
  - rewrite str_in_cons in H. cbn [replace_from].
    destruct (String.prefix old (String c s)) eqn:E.
    + pose proof (replace_from_length old s (String.length old - 1)).
      cbn [append String.length]. lia.
    + simpl in H. specialize (IH H). cbn [String.length]. lia.
Qed.

Lemma replace_from_miss (old new s : string) :
  str_in old s = false -> replace_from old new 0 s = s.
Proof.
  induction s as [|c s IH]; intros H; [reflexivity|].
  rewrite str_in_cons in H. apply orb_false_iff in H as [H1 H2].
  cbn [replace_from]. rewrite H1. f_equal. apply IH. exact H2.
Qed.

Lemma replace_length (s old : string) :
  old <> "" -> String.length (replace s old "") <= String.length s.
Proof.
  intros H. destruct old as [|a old]; [congruence|].
  unfold replace. pose proof (replace_from_length (String a old) s 0). lia.
Qed.

Lemma replace_hit (s old : string) :
  old <> "" -> str_in old s = true ->
  String.length (replace s old "") < String.length s.
Proof.
  intros H Hin. destruct old as [|a old]; [congruence|].
  unfold replace. apply replace_from_hit; assumption.
Qed.

Lemma replace_miss (s old new : string) :
  old <> "" -> str_in old s = false -> replace s old new = s.
Proof.
  intros H Hin. destruct old as [|a old]; [congruence|].
  unfold replace. apply replace_from_miss; assumption.
Qed.

(** A pass either leaves the text as it is or makes it shorter. *)
Lemma replace_same_or_shorter (s old : string) :
  old <> "" ->
  replace s old "" = s \/ String.length (replace s old "") < String.length s.
Proof.
  intros H. destruct (str_in old s) eqn:E.
  - right. apply replace_hit; assumption.
  - left. apply replace_miss; assumption.
Qed.

Lemma lstrip_length (s : string) : String.length (lstrip s) <= String.length s.
Proof.
  induction s as [|c s IH]; [simpl; lia|].
  cbn [lstrip]. destruct (isspace c); cbn [String.length]; lia.
Qed.

Lemma rstrip_length (s : string) : String.length (rstrip s) <= String.length s.
Proof.
  induction s as [|c s IH]; [simpl; lia|].
  cbn [rstrip]. destruct (rstrip s) as [|d r].
  - destruct (isspace c); cbn [String.length]; lia.
  - cbn [String.length] in *. lia.
Qed.

Lemma strip_length (s : string) : String.length (strip s) <= String.length s.
Proof.
  unfold strip. pose proof (rstrip_length (lstrip s)).
  pose proof (lstrip_length s). lia.
Qed.

Lemma rstrip_cons_solid (c : ascii) (r : string) :
  isspace c = false -> rstrip (String c r) = String c (rstrip r).
Proof.
  intros H. cbn [rstrip]. rewrite H. destruct (rstrip r); reflexivity.
Qed.

Lemma rstrip_app_solid (p r : string) :
  no_space p = true -> rstrip (p ++ r) = p ++ rstrip r.
Proof.
  induction p as [|c p IH]; intros H; [reflexivity|].
  cbn [no_space] in H. apply andb_true_iff in H as [Hc Hp].
  apply negb_true_iff in Hc.
  change (String c p ++ r) with (String c (p ++ r)).
  rewrite rstrip_cons_solid by assumption. rewrite IH by assumption.
  reflexivity.
Qed.

Lemma prefix_str_in (p s : string) :
  String.prefix p s = true -> str_in p s = true.
Proof.
  intros H. destruct s; [rewrite str_in_nil | rewrite str_in_cons, H]; auto.
Qed.

Lemma lstrip_keeps (p s : string) :
  no_space p = true -> p <> "" ->
  str_in p s = true -> str_in p (lstrip s) = true.
Proof.
  intros Hp Hne. induction s as [|c s IH]; intros H; [exact H|].
  cbn [lstrip]. destruct (isspace c) eqn:Ec; [|exact H].
  apply IH. rewrite str_in_cons in H. apply orb_true_iff in H as [H|H]; [|exact H].
  destruct p as [|a p]; [congruence|].
  cbn [no_space] in Hp. apply andb_true_iff in Hp as [Ha _].
  simpl in H. destruct (ascii_dec a c) as [->|]; [|discriminate].
  rewrite Ec in Ha. discriminate.
Qed.

Lemma rstrip_keeps (p s : string) :
  no_space p = true -> p <> "" ->
  str_in p s = true -> str_in p (rstrip s) = true.
Proof.
  intros Hp Hne. induction s as [|c s IH]; intros H; [exact H|].
  rewrite str_in_cons in H. apply orb_true_iff in H as [H|H].
  - apply prefix_str_in. destruct (prefix_split _ _ H) as [r ->].
    rewrite rstrip_app_solid by assumption. apply prefix_app.
  - specialize (IH H). cbn [rstrip]. destruct (rstrip s) as [|d r] eqn:E.
    + rewrite str_in_nil, prefix_empty in IH by assumption. discriminate.
    + rewrite str_in_cons, IH. apply orb_true_r.
Qed.

Lemma strip_keeps (p s : string) :
  no_space p = true -> p <> "" ->
  str_in p s = true -> str_in p (strip s) = true.
Proof.
  intros Hp Hne H. unfold strip.
  apply rstrip_keeps; try assumption. apply lstrip_keeps; assumption.
Qed.

End StringFacts.

(* ================================================================= *)
(** ** Sanitization deletes tokens wherever they stand *)

Section Sanitization.

Lemma sanitize_length (q : string) :
  String.length (sanitize_sql q) <= String.length (strip q).
Proof.
  unfold sanitize_sql.
  repeat match goal with
         | |- context [replace ?y ?old ""] =>
             lazymatch goal with
             | _ : String.length (replace y old "") <= _ |- _ => fail
             | _ => pose proof (replace_length y old ltac:(discriminate))
             end
         end.
  match goal with |- String.length (strip ?y) <= _ =>
    pose proof (strip_length y) end.
  lia.
Qed.

(** A text that holds one of the tokens anywhere loses characters. *)
Lemma sanitize_shrinks (q tok : string) :
  In tok SANITIZED_TOKENS -> str_in tok (strip q) = true ->
  String.length (sanitize_sql q) < String.length (strip q).
Proof.
  intros Hin Hs. unfold sanitize_sql.
  set (y0 := strip q) in *.
  pose proof (replace_length y0 "```sql" ltac:(discriminate)) as L1.
  pose proof (replace_same_or_shorter y0 "```sql" ltac:(discriminate)) as D1.
  set (y1 := replace y0 "```sql" "") in *.
  pose proof (replace_length y1 "```" ltac:(discriminate)) as L2.
  pose proof (replace_same_or_shorter y1 "```" ltac:(discriminate)) as D2.
  set (y2 := replace y1 "```" "") in *.
  pose proof (replace_length y2 "*/" ltac:(discriminate)) as L3.
  pose proof (replace_same_or_shorter y2 "*/" ltac:(discriminate)) as D3.
  set (y3 := replace y2 "*/" "") in *.
  pose proof (replace_length y3 "SQL:" ltac:(discriminate)) as L4.
  set (y4 := replace y3 "SQL:" "") in *.
  pose proof (strip_length y4) as L5.
  destruct Hin as [<-|[<-|[<-|[<-|[]]]]].
  - pose proof (replace_hit y0 "```sql" ltac:(discriminate) Hs). fold y1 in H. lia.
  - destruct D1 as [E1|]; [|lia].
    rewrite <- E1 in Hs.
    pose proof (replace_hit y1 "```" ltac:(discriminate) Hs). fold y2 in H. lia.
  - destruct D1 as [E1|]; [|lia]. destruct D2 as [E2|]; [|lia].
    rewrite <- E1, <- E2 in Hs.
    pose proof (replace_hit y2 "*/" ltac:(discriminate) Hs). fold y3 in H. lia.
  - destruct D1 as [E1|]; [|lia]. destruct D2 as [E2|]; [|lia].
    destruct D3 as [E3|]; [|lia].
    rewrite <- E1, <- E2, <- E3 in Hs.
    pose proof (replace_hit y3 "SQL:" ltac:(discriminate) Hs). fold y4 in H. lia.
Qed.

Lemma token_survives_strip (tok s : string) :
  In tok SANITIZED_TOKENS -> str_in tok s = true -> str_in tok (strip s) = true.
Proof.
  intros Hin. apply strip_keeps;
    destruct Hin as [<-|[<-|[<-|[<-|[]]]]]; first [reflexivity | discriminate].
Qed.

End Sanitization.

(* ================================================================= *)
(** ** Validation: length and verb prefix *)

Section Validation.

Lemma same_letter_lower (a b : ascii) :
  same_letter a b = true -> lower_char a = lower_char b.
Proof.
  unfold same_letter. intros H.
  apply orb_true_iff in H as [H|H]; [apply orb_true_iff in H as [H|H]|].
  - apply Nat.eqb_eq in H.
    rewrite <- (ascii_nat_embedding a), <- (ascii_nat_embedding b), H.
    reflexivity.
  - apply andb_true_iff in H as [H H3]. apply andb_true_iff in H as [H1 H2].
    apply Nat.leb_le in H1, H2. apply Nat.eqb_eq in H3.
    unfold lower_char. rewrite <- H3.
    replace ((65 <=? nat_of_ascii a) && (nat_of_ascii a <=? 90))%nat with true
      by (symmetry; apply andb_true_iff; split; apply Nat.leb_le; lia).
    replace ((65 <=? nat_of_ascii a + 32) && (nat_of_ascii a + 32 <=? 90))%nat
      with false
      by (symmetry; apply andb_false_iff; right; apply Nat.leb_gt; lia).
    replace ((192 <=? nat_of_ascii a + 32))%nat with false
      by (symmetry; apply Nat.leb_gt; lia).
    cbn [orb andb]. rewrite H3. apply ascii_nat_embedding.
  - apply andb_true_iff in H as [H H3]. apply andb_true_iff in H as [H1 H2].
    apply Nat.leb_le in H1, H2. apply Nat.eqb_eq in H3.
    unfold lower_char. rewrite <- H3.
    replace ((65 <=? nat_of_ascii b) && (nat_of_ascii b <=? 90))%nat with true
      by (symmetry; apply andb_true_iff; split; apply Nat.leb_le; lia).
    replace ((65 <=? nat_of_ascii b + 32) && (nat_of_ascii b + 32 <=? 90))%nat
      with false
      by (symmetry; apply andb_false_iff; right; apply Nat.leb_gt; lia).
    replace ((192 <=? nat_of_ascii b + 32))%nat with false
      by (symmetry; apply Nat.leb_gt; lia).
    cbn [orb andb]. rewrite H3. symmetry. apply ascii_nat_embedding.
Qed.

Lemma ci_prefix_lower (v s : string) :
  ci_prefix v s = true -> startswith (lower s) (lower v) = true.
Proof.
  unfold startswith. revert s.
  induction v as [|a v IH]; intros s H.
  - destruct s; reflexivity.
  - destruct s as [|b s]; [discriminate|].
    cbn [ci_prefix] in H. apply andb_true_iff in H as [Hab Hv].
    cbn [lower String.prefix].
    rewrite (same_letter_lower _ _ Hab).
    destruct (ascii_dec (lower_char b) (lower_char b)); [|congruence].
    apply IH. exact Hv.
Qed.

(** The code's test on the lowered text agrees with the specification's
    case-insensitive reading of the verbs. *)
Lemma verb_ci_accepted (s : string) :
  starts_with_verb_ci s = true ->
  startswith_any (lower s) SQL_VERBS = true.
Proof.
  unfold starts_with_verb_ci, startswith_any. intros H.
  apply existsb_exists in H as (v & Hv & H).
  apply existsb_exists. exists (lower v). split.
  - change SQL_VERBS with (map lower SPEC_VERBS). apply in_map. exact Hv.
  - apply ci_prefix_lower. exact H.
Qed.

End Validation.

(* ================================================================= *)
(** ** A validated query passes Execution's own test *)

Section Reclean.

Lemma lower_letter_inert (c : ascii) :
  is_lower_letter (lower_char c) = true -> inert_char c = true.
Proof.
  destruct c as [[] [] [] [] [] [] [] []];
    first [reflexivity | intros H; vm_compute in H; discriminate H].
Qed.

Lemma lower_prefix_split (v s : string) :
  String.prefix v (lower s) = true -> exists p r, s = p ++ r /\ lower p = v.
Proof.
  revert s. induction v as [|a v IH]; intros s H.
  - exists "", s. split; reflexivity.
  - destruct s as [|c s]; [discriminate|].
    cbn [lower String.prefix] in H.
    destruct (ascii_dec a (lower_char c)) as [->|]; [|discriminate].
    destruct (IH s H) as (p & r & -> & <-).
    exists (String c p), r. split; reflexivity.
Qed.

Lemma lowered_letters_inert (p : string) :
  all_lower_letters (lower p) = true -> inert p = true.
Proof.
  induction p as [|c p IH]; [reflexivity|].
  cbn [lower all_lower_letters inert]. intros H.
  apply andb_true_iff in H as [Hc Hp].
  rewrite (lower_letter_inert c Hc), (IH Hp). reflexivity.
Qed.

Lemma inert_no_space (p : string) : inert p = true -> no_space p = true.
Proof.
  induction p as [|c p IH]; [reflexivity|].
  cbn [inert no_space]. unfold inert_char. intros H.
  apply andb_true_iff in H as [Hc Hp].
  apply andb_true_iff in Hc as [Hc _]. apply andb_true_iff in Hc as [Hc _].
  rewrite Hc, (IH Hp). reflexivity.
Qed.

Lemma lstrip_inert_head (p r : string) :
  inert p = true -> p <> "" -> lstrip (p ++ r) = p ++ r.
Proof.
  destruct p as [|c p]; [congruence|]. intros H _.
  apply inert_no_space in H. cbn [no_space] in H.
  apply andb_true_iff in H as [Hc _]. apply negb_true_iff in Hc.
  cbn [append lstrip]. rewrite Hc. reflexivity.
Qed.

Lemma strip_inert_head (p r : string) :
  inert p = true -> p <> "" -> strip (p ++ r) = p ++ rstrip r.
Proof.
  intros H Hne. unfold strip. rewrite lstrip_inert_head by assumption.
  apply rstrip_app_solid. apply inert_no_space. exact H.
Qed.

Lemma replace_star_inert_head (p r : string) :
  inert p = true -> replace (p ++ r) "*/" "" = p ++ replace r "*/" "".
Proof.
  unfold replace. induction p as [|c p IH]; intros H; [reflexivity|].
  cbn [inert] in H. apply andb_true_iff in H as [Hc Hp].
  unfold inert_char in Hc. apply andb_true_iff in Hc as [Hc _].
  apply andb_true_iff in Hc as [_ Hc]. apply negb_true_iff in Hc.
  apply Ascii.eqb_neq in Hc.
  cbn [append replace_from String.prefix].
  destruct (ascii_dec "*" c) as [E|_]; [congruence|].
  rewrite IH by assumption. reflexivity.
Qed.

Lemma replace_fence_inert_head (p r : string) :
  inert p = true -> replace (p ++ r) "```" "" = p ++ replace r "```" "".
Proof.
  unfold replace. induction p as [|c p IH]; intros H; [reflexivity|].
  cbn [inert] in H. apply andb_true_iff in H as [Hc Hp].
  unfold inert_char in Hc. apply andb_true_iff in Hc as [_ Hc].
  apply negb_true_iff in Hc. apply Ascii.eqb_neq in Hc.
  cbn [append replace_from String.prefix].
  destruct (ascii_dec "`" c) as [E|_]; [congruence|].
  rewrite IH by assumption. reflexivity.
Qed.

Lemma reclean_inert_head (p r : string) :
  inert p = true -> p <> "" -> exists r', reclean_sql (p ++ r) = p ++ r'.
Proof.
  intros H Hne. unfold reclean_sql.
  rewrite strip_inert_head by assumption.
  rewrite replace_star_inert_head by assumption.
  rewrite replace_fence_inert_head by assumption.
  rewrite strip_inert_head by assumption.
  eexists. reflexivity.
Qed.

Lemma lower_app (p r : string) : lower (p ++ r) = lower p ++ lower r.
Proof.
  induction p as [|c p IH]; [reflexivity|].
  cbn [append lower]. rewrite IH. reflexivity.
Qed.

(** What Generation accepts, Execution submits. *)
Lemma valid_survives_reclean (s : string) :
  invalid_sql s = false ->
  s <> "" /\ startswith_any (lower (reclean_sql s)) SQL_VERBS = true.
Proof.
  unfold invalid_sql, truthy. intros H.
  apply orb_false_iff in H as [H Hverb]. apply orb_false_iff in H as [Hne _].
  apply negb_false_iff in Hne, Hverb. apply negb_true_iff in Hne.
  split; [apply String.eqb_neq; exact Hne|].
  unfold startswith_any in *.
  apply existsb_exists in Hverb as (v & Hv & Hpre).
  apply existsb_exists. exists v. split; [exact Hv|].
  unfold startswith in *.
  destruct (lower_prefix_split v s Hpre) as (p & r & -> & Hlow).
  assert (inert p = true /\ p <> "") as [Hin Hp].
  { split.
    - apply lowered_letters_inert. rewrite Hlow.
      repeat (destruct Hv as [<-|Hv]; [reflexivity|]). destruct Hv.
    - intros ->. cbn in Hlow. subst v.
      repeat (destruct Hv as [Hv|Hv]; [discriminate Hv|]). destruct Hv. }
  destruct (reclean_inert_head p r Hin Hp) as [r' ->].
  rewrite lower_app, Hlow. apply prefix_app.
Qed.

End Reclean.

(* ================================================================= *)
(** ** Code fences around the model's text *)

Section Fences.

Lemma append_assoc (a b c : string) : (a ++ b) ++ c = a ++ b ++ c.
Proof. induction a as [|x a IH]; [reflexivity|]. cbn [append]. rewrite IH. reflexivity. Qed.

Lemma append_nil_r (a : string) : a ++ "" = a.
Proof. induction a as [|x a IH]; [reflexivity|]. cbn [append]. rewrite IH. reflexivity. Qed.

Lemma prefix_length (old s : string) :
  String.prefix old s = true -> String.length old <= String.length s.
Proof.
  intros H. destruct (prefix_split old s H) as [r ->]. clear H.
  induction old as [|x old IH]; cbn [append String.length]; lia.
Qed.

(** A character that does not occur in [old] cuts every match. *)
Lemma prefix_sep (old a b : string) (c : ascii) :
  absent c old = true ->
  old <> "" ->
  String.prefix old (a ++ String c b) = String.prefix old a.
Proof.
  revert a. induction old as [|o old IH]; intros a Habs Hne; [congruence|].
  cbn [absent] in Habs. apply andb_true_iff in Habs as [Ho Hrest].
  apply negb_true_iff in Ho. apply Ascii.eqb_neq in Ho.
  destruct a as [|x a]; cbn [append String.prefix].
  - destruct (ascii_dec o c); [congruence | reflexivity].
  - destruct (ascii_dec o x); [|reflexivity].
    destruct old as [|o' old'].
    + destruct (a ++ String c b), a; reflexivity.
    + apply IH; [exact Hrest | discriminate].
Qed.

Lemma replace_from_sep (old new b : string) (c : ascii) :
  absent c old = true -> old <> "" ->
  forall (a : string) (k : nat),
    k <= String.length a ->
    replace_from old new k (a ++ String c b)
    = replace_from old new k a ++ String c (replace_from old new 0 b).
Proof.
  intros Habs Hne. induction a as [|x a IH]; intros k Hk.
  - cbn [String.length] in Hk. assert (k = 0) as -> by lia.
    change ("" ++ String c b) with (String c b). cbn [replace_from append].
    replace (String.prefix old (String c b)) with false; [reflexivity|].
    symmetry. change (String c b) with ("" ++ String c b).
    rewrite (prefix_sep old "" b c Habs Hne).
    apply prefix_empty. exact Hne.
  - change (String x a ++ String c b) with (String x (a ++ String c b)).
    cbn [replace_from String.length] in *. destruct k as [|k].
    + change (String x (a ++ String c b)) with (String x a ++ String c b).
      rewrite (prefix_sep old (String x a) b c Habs Hne).
      destruct (String.prefix old (String x a)) eqn:E.
      * apply prefix_length in E. cbn [String.length] in E.
        rewrite IH by lia. symmetry. apply append_assoc.
      * rewrite IH by lia. reflexivity.
    + apply IH. lia.
Qed.

Lemma replace_sep (old new a b : string) (c : ascii) :
  absent c old = true -> old <> "" ->
  replace (a ++ String c b) old new
  = replace a old new ++ String c (replace b old new).
Proof.
  intros Habs Hne. destruct old as [|o old]; [congruence|].
  unfold replace. apply replace_from_sep; [assumption | discriminate | lia].
Qed.

Lemma space_absent (c : ascii) (old : string) :
  isspace c = true -> no_space old = true -> absent c old = true.
Proof.
  intros Hc. induction old as [|o old IH]; [reflexivity|].
  cbn [no_space absent]. intros H. apply andb_true_iff in H as [Ho Hold].
  rewrite (IH Hold), andb_true_r. apply negb_true_iff. apply Ascii.eqb_neq.
  intros ->. rewrite Hc in Ho. discriminate.
Qed.

Lemma replace_nil (old new : string) : old <> "" -> replace "" old new = "".
Proof. destruct old; [congruence | reflexivity]. Qed.

Lemma replace_space_left (old new w s : string) :
  no_space old = true -> old <> "" -> all_space w = true ->
  replace (w ++ s) old new = w ++ replace s old new.
Proof.
  intros Hold Hne. induction w as [|c w IH]; intros Hw; [reflexivity|].
  cbn [all_space] in Hw. apply andb_true_iff in Hw as [Hc Hw].
  change (String c w ++ s) with ("" ++ String c (w ++ s)).
  rewrite (replace_sep old new "" (w ++ s) c (space_absent c old Hc Hold) Hne).
  rewrite replace_nil by assumption. rewrite IH by assumption. reflexivity.
Qed.

Lemma replace_space_right (old new w s : string) :
  no_space old = true -> old <> "" -> all_space w = true ->
  replace (s ++ w) old new = replace s old new ++ w.
Proof.
  intros Hold Hne Hw. destruct w as [|c w].
  - rewrite !append_nil_r. reflexivity.
  - pose proof Hw as Hw'. cbn [all_space] in Hw'.
    apply andb_true_iff in Hw' as [Hc Hw'].
    rewrite (replace_sep old new s w c (space_absent c old Hc Hold) Hne).
    rewrite <- (append_nil_r w) at 1.
    rewrite (replace_space_left old new w "" Hold Hne Hw').
    rewrite replace_nil by assumption. rewrite append_nil_r. reflexivity.
Qed.

Lemma delete_tokens_padded (w1 w2 s : string) :
  all_space w1 = true -> all_space w2 = true ->
  delete_tokens (w1 ++ s ++ w2) = w1 ++ delete_tokens s ++ w2.
Proof.
  intros H1 H2. unfold delete_tokens.
  rewrite (replace_space_left "```sql" "" w1 (s ++ w2)),
          (replace_space_right "```sql" "" w2 s)
    by first [reflexivity | discriminate | assumption].
  rewrite (replace_space_left "```" "" w1 (_ ++ w2)),
          (replace_space_right "```" "" w2 _)
    by first [reflexivity | discriminate | assumption].
  rewrite (replace_space_left "*/" "" w1 (_ ++ w2)),
          (replace_space_right "*/" "" w2 _)
    by first [reflexivity | discriminate | assumption].
  rewrite (replace_space_left "SQL:" "" w1 (_ ++ w2)),
          (replace_space_right "SQL:" "" w2 _)
    by first [reflexivity | discriminate | assumption].
  reflexivity.
Qed.

Lemma lstrip_split (s : string) :
  exists w, all_space w = true /\ s = w ++ lstrip s.
Proof.
  induction s as [|c s (w & Hw & IH)]; [exists ""; split; reflexivity|].
  cbn [lstrip]. destruct (isspace c) eqn:Hc.
  - exists (String c w). cbn [all_space append]. rewrite Hc, Hw, <- IH.
    split; reflexivity.
  - exists "". split; reflexivity.
Qed.

Lemma rstrip_split (s : string) :
  exists w, all_space w = true /\ s = rstrip s ++ w.
Proof.
  induction s as [|c s (w & Hw & IH)]; [exists ""; split; reflexivity|].
  cbn [rstrip]. destruct (rstrip s) as [|d r] eqn:E.
  - cbn [append] in IH. subst s. destruct (isspace c) eqn:Hc.
    + exists (String c w). cbn [all_space append]. rewrite Hc, Hw.
      split; reflexivity.
    + exists w. split; [exact Hw | reflexivity].
  - exists w. split; [exact Hw|]. cbn [append]. f_equal. exact IH.
Qed.

Lemma strip_split (s : string) :
  exists w1 w2,
    all_space w1 = true /\ all_space w2 = true /\ s = w1 ++ strip s ++ w2.
Proof.
  destruct (lstrip_split s) as (w1 & H1 & E1).
  destruct (rstrip_split (lstrip s)) as (w2 & H2 & E2).
  exists w1, w2. split; [exact H1|]. split; [exact H2|].
  unfold strip. rewrite <- E2. exact E1.
Qed.

Lemma lstrip_space_left (w s : string) :
  all_space w = true -> lstrip (w ++ s) = lstrip s.
Proof.
  induction w as [|c w IH]; intros H; [reflexivity|].
  cbn [all_space] in H. apply andb_true_iff in H as [Hc Hw].
  cbn [append lstrip]. rewrite Hc. apply IH. exact Hw.
Qed.

Lemma rstrip_space_last (s : string) (c : ascii) :
  isspace c = true -> rstrip (s ++ String c "") = rstrip s.
Proof.
  intros Hc. induction s as [|x s IH].
  - cbn [append rstrip]. rewrite Hc. reflexivity.
  - cbn [append rstrip]. rewrite IH. reflexivity.
Qed.

Lemma strip_space_last (s : string) (c : ascii) :
  isspace c = true -> strip (s ++ String c "") = strip s.
Proof.
  intros Hc. unfold strip. induction s as [|x s IH].
  - cbn [append lstrip]. rewrite Hc. reflexivity.
  - cbn [append lstrip]. destruct (isspace x); [exact IH|].
    apply (rstrip_space_last (String x s) c Hc).
Qed.

Lemma strip_space_right (w s : string) :
  all_space w = true -> strip (s ++ w) = strip s.
Proof.
  revert s. induction w as [|c w IH]; intros s H.
  - rewrite append_nil_r. reflexivity.
  - cbn [all_space] in H. apply andb_true_iff in H as [Hc Hw].
    change (String c w) with (String c "" ++ w).
    rewrite <- append_assoc. rewrite IH by assumption.
    apply strip_space_last. exact Hc.
Qed.

Lemma strip_padded (w1 w2 s : string) :
  all_space w1 = true -> all_space w2 = true ->
  strip (w1 ++ s ++ w2) = strip s.
Proof.
  intros H1 H2. unfold strip at 1. rewrite lstrip_space_left by assumption.
  fold (strip (s ++ w2)). apply strip_space_right. exact H2.
Qed.

Lemma strip_idempotent (s : string) : strip (strip s) = strip s.
Proof.
  destruct (strip_split s) as (w1 & w2 & H1 & H2 & E).
  rewrite E at 2. symmetry. apply strip_padded; assumption.
Qed.

(** The white space around the model's text plays no part in what the
    chain returns. *)
Lemma sanitize_sql_strip (s : string) :
  sanitize_sql (strip s) = strip (delete_tokens s).
Proof.
  change (sanitize_sql (strip s)) with (strip (delete_tokens (strip (strip s)))).
  rewrite strip_idempotent.
  destruct (strip_split s) as (w1 & w2 & H1 & H2 & E).
  rewrite E at 2. rewrite delete_tokens_padded by assumption.
  symmetry. apply strip_padded; assumption.
Qed.

Lemma delete_tokens_fenced (body : string) :
  delete_tokens (fenced body) = nl ++ delete_tokens body ++ nl.
Proof.
  unfold delete_tokens, fenced, nl.
  change ("```sql" ++ String (ascii_of_nat 10) "" ++ body
          ++ String (ascii_of_nat 10) "" ++ "```")
    with ("```sql" ++ String (ascii_of_nat 10) (body ++ String (ascii_of_nat 10) "```")).
  rewrite !(replace_sep "```sql") by first [reflexivity | discriminate].
  change (replace "```sql" "```sql" "") with "".
  change (replace "```" "```sql" "") with "```".
  change ("" ++ ?x) with x.
  change (String (ascii_of_nat 10) ?x) with ("" ++ String (ascii_of_nat 10) x) at 1.
  rewrite !(replace_sep "```") by first [reflexivity | discriminate].
  change (replace "```" "```" "") with "".
  change (replace "" "```" "") with "".
  change ("" ++ ?x) with x.
  change (String (ascii_of_nat 10) ?x) with ("" ++ String (ascii_of_nat 10) x) at 1.
  rewrite !(replace_sep "*/") by first [reflexivity | discriminate].
  change (replace "" "*/" "") with "".
  change ("" ++ ?x) with x.
  change (String (ascii_of_nat 10) ?x) with ("" ++ String (ascii_of_nat 10) x) at 1.
  rewrite !(replace_sep "SQL:") by first [reflexivity | discriminate].
  change (replace "" "SQL:" "") with "".
  reflexivity.
Qed.

(** Wrapped in fences or not, the text is sanitized to the same SQL. *)
Lemma sanitize_fenced (body : string) :
  sanitize_sql (strip (fenced body)) = sanitize_sql (strip body).
Proof.
  rewrite !sanitize_sql_strip, delete_tokens_fenced.
  apply strip_padded; reflexivity.
Qed.

End Fences.

(* ================================================================= *)
(** ** The three nodes, one call at a time *)

Section Nodes.

Variable llm : history -> string -> outcome.
Variable db : history -> string -> outcome.

Lemma generate_returned (st : AgentState) (h : history) (content : string) :
  llm h (generation_prompt st) = Returned content ->
  generate_sql_node llm st h =
    (if invalid_sql (sanitize_sql (strip content))
     then {| set_sql_query := Some "";
             set_data := Some "Error: Invalid SQL generated.";
             set_answer := None;
             set_retries := Some (retries st) |}
     else {| set_sql_query := Some (sanitize_sql (strip content));
             set_data := None;
             set_answer := None;
             set_retries := Some (retries st) |},
     (h ++ [LLMInvoke (generation_prompt st)])%list).
Proof.
  intros H. unfold generate_sql_node, bind, llm_invoke. rewrite H.
  destruct (invalid_sql _); reflexivity.
Qed.

Lemma generate_raised (st : AgentState) (h : history) (e : string) :
  llm h (generation_prompt st) = Raised e ->
  generate_sql_node llm st h =
    ({| set_sql_query := Some "";
        set_data := Some ("Error during SQL generation: " ++ e);
        set_answer := None;
        set_retries := Some (retries st) |},
     (h ++ [LLMInvoke (generation_prompt st)])%list).
Proof.
  intros H. unfold generate_sql_node, bind, llm_invoke. rewrite H. reflexivity.
Qed.

Lemma execute_no_sql (st : AgentState) (h : history) :
  sql_query st = "" ->
  execute_sql_node db st h =
    ({| set_sql_query := None;
        set_data := Some "Error: No valid SQL to execute.";
        set_answer := None;
        set_retries := Some (retries st) |}, h).
Proof. intros H. unfold execute_sql_node. rewrite H. reflexivity. Qed.

Lemma execute_bad_prefix (st : AgentState) (h : history) :
  sql_query st <> "" ->
  startswith_any (lower (reclean_sql (sql_query st))) SQL_VERBS = false ->
  execute_sql_node db st h =
    ({| set_sql_query := None;
        set_data := Some "Error: Invalid SQL, stopping execution.";
        set_answer := None;
        set_retries := Some (retries st) |}, h).
Proof.
  intros Hne H. unfold execute_sql_node, truthy.
  apply String.eqb_neq in Hne. rewrite Hne, H. reflexivity.
Qed.

Lemma execute_submits (st : AgentState) (h : history) :
  sql_query st <> "" ->
  startswith_any (lower (reclean_sql (sql_query st))) SQL_VERBS = true ->
  execute_sql_node db st h =
    ({| set_sql_query := None;
        set_data := Some match db h (reclean_sql (sql_query st)) with
                         | Returned result => result
                         | Raised e => "Error: " ++ e
                         end;
        set_answer := None;
        set_retries := Some (retries st) |},
     (h ++ [DBRun (reclean_sql (sql_query st))])%list).
Proof.
  intros Hne H. unfold execute_sql_node, truthy, bind, db_run.
  apply String.eqb_neq in Hne. rewrite Hne, H. cbn [negb].
  destruct (db h _); reflexivity.
Qed.

Lemma synthesize_calls_once (st : AgentState) (h : history) :
  synthesize_answer_node llm st h =
    ({| set_sql_query := None;
        set_data := None;
        set_answer := Some match llm h (synthesis_prompt st) with
                           | Returned content => strip content
                           | Raised e => "Error synthesizing answer: " ++ e
                           end;
        set_retries := Some (retries st) |},
     (h ++ [LLMInvoke (synthesis_prompt st)])%list).
Proof.
  unfold synthesize_answer_node, bind, llm_invoke.
  destruct (llm h _); reflexivity.
Qed.

(** Every node hands back the [retries] it was given. *)
Lemma generate_keeps_retries (st : AgentState) (h : history) :
  set_retries (fst (generate_sql_node llm st h)) = Some (retries st).
Proof.
  destruct (llm h (generation_prompt st)) as [content|e] eqn:E.
  - rewrite (generate_returned _ _ _ E). destruct (invalid_sql _); reflexivity.
  - rewrite (generate_raised _ _ _ E). reflexivity.
Qed.

Lemma execute_keeps_retries (st : AgentState) (h : history) :
  set_retries (fst (execute_sql_node db st h)) = Some (retries st).
Proof.
  unfold execute_sql_node, bind, db_run.
  destruct (negb (truthy (sql_query st))); [reflexivity|].
  destruct (negb (startswith_any _ _)); [reflexivity|].
  destruct (db h _); reflexivity.
Qed.

Lemma synthesize_keeps_retries (st : AgentState) (h : history) :
  set_retries (fst (synthesize_answer_node llm st h)) = Some (retries st).
Proof. rewrite synthesize_calls_once. reflexivity. Qed.

(** Execution always sets [data], whatever the store does. *)
Lemma execute_sets_data (st : AgentState) (h : history) :
  exists d, set_data (fst (execute_sql_node db st h)) = Some d.
Proof.
  unfold execute_sql_node, bind, db_run.
  destruct (negb (truthy (sql_query st))); [eexists; reflexivity|].
  destruct (negb (startswith_any _ _)); [eexists; reflexivity|].
  destruct (db h _); eexists; reflexivity.
Qed.

End Nodes.

(* ================================================================= *)
(** ** The retry decision *)

Section Decision.

Lemma decide_exhausted (st : AgentState) :
  (3 <= retries st)%Z -> should_continue_or_retry st = Ok (synthesize, st).
Proof.
  intros H. unfold should_continue_or_retry.
  destruct (Z.geb_spec (retries st) 3) as [_|]; [reflexivity | lia].
Qed.

Lemma decide_retry (st : AgentState) (d : string) :
  (retries st < 3)%Z -> data st = Some d -> str_in "Error:" d = true ->
  should_continue_or_retry st
  = Ok (retry, assign_retries st (retries st + 1)).
Proof.
  intros H Hd Hin. unfold should_continue_or_retry.
  destruct (Z.geb_spec (retries st) 3) as [|_]; [lia|].
  rewrite Hd, Hin. reflexivity.
Qed.

Lemma decide_proceed (st : AgentState) (d : string) :
  (retries st < 3)%Z -> data st = Some d -> str_in "Error:" d = false ->
  should_continue_or_retry st = Ok (synthesize, st).
Proof.
  intros H Hd Hin. unfold should_continue_or_retry.
  destruct (Z.geb_spec (retries st) 3) as [|_]; [lia|].
  rewrite Hd, Hin. reflexivity.
Qed.

(** The two ways the decision can come out. *)
Lemma decide_cases (st st' : AgentState) (label : route) :
  should_continue_or_retry st = Ok (label, st') ->
  (label = synthesize /\ st' = st)
  \/ (label = retry /\ st' = assign_retries st (retries st + 1)
      /\ (retries st < 3)%Z
      /\ exists d, data st = Some d /\ str_in "Error:" d = true).
Proof.
  unfold should_continue_or_retry.
  destruct (Z.geb_spec (retries st) 3) as [|Hlt].
  - intros [= <- <-]. left. split; reflexivity.
  - destruct (data st) as [d|] eqn:Hd; [|discriminate].
    destruct (str_in "Error:" d) eqn:Hin; intros [= <- <-].
    + right. repeat split; try lia. exists d. split; [reflexivity | exact Hin].
    + left. split; reflexivity.
Qed.

Lemma decide_total (st : AgentState) (d : string) :
  data st = Some d ->
  exists label st', should_continue_or_retry st = Ok (label, st').
Proof.
  intros Hd. unfold should_continue_or_retry.
  destruct (retries st >=? 3)%Z; [eexists; eexists; reflexivity|].
  rewrite Hd. destruct (str_in "Error:" d); eexists; eexists; reflexivity.
Qed.

End Decision.

(* ================================================================= *)
(** ** The graph run: unfolding equations and invariants *)

Section Loop.

Variable llm : history -> string -> outcome.
Variable db : history -> string -> outcome.

Lemma merge_keeps_retries (st : AgentState) (u : Update) :
  set_retries u = Some (retries st) -> retries (merge st u) = retries st.
Proof. intros H. unfold merge. cbn [retries]. rewrite H. reflexivity. Qed.

Lemma run_out_of_steps (eng : engine) (n : node) (st : AgentState) (h : history) :
  run llm db eng 0 n st h = (([], GraphRecursionError), h).
Proof. reflexivity. Qed.

Lemma run_generate (eng : engine) (limit : nat) (st : AgentState) (h h1 : history)
  (u : Update) :
  generate_sql_node llm st h = (u, h1) ->
  run llm db eng (S limit) generate_sql st h =
    let rest := run llm db eng limit execute_sql (merge st u) h1 in
    ((mkStep generate_sql u (merge st u) :: fst (fst rest), snd (fst rest)),
     snd rest).
Proof.
  intros H. cbn [run]. unfold bind, ret. rewrite H.
  destruct (run llm db eng limit execute_sql (merge st u) h1) as [[tr r] h2].
  reflexivity.
Qed.

Lemma run_execute (eng : engine) (limit : nat) (st mutated : AgentState)
  (h h1 : history) (u : Update) (label : route) :
  execute_sql_node db st h = (u, h1) ->
  should_continue_or_retry (merge st u) = Ok (label, mutated) ->
  run llm db eng (S limit) execute_sql st h =
    let next_state :=
      match eng with SharedState => mutated | ChannelCopy => merge st u end in
    let next :=
      match label with synthesize => synthesize_answer | retry => generate_sql end in
    let rest := run llm db eng limit next next_state h1 in
    ((mkStep execute_sql u next_state :: fst (fst rest), snd (fst rest)),
     snd rest).
Proof.
  intros H D. cbn [run]. unfold bind, ret. rewrite H, D. cbv zeta.
  destruct (run llm db eng limit _ _ h1) as [[tr r] h2].
  reflexivity.
Qed.

Lemma run_synthesize (eng : engine) (limit : nat) (st : AgentState) (h h1 : history)
  (u : Update) :
  synthesize_answer_node llm st h = (u, h1) ->
  run llm db eng (S limit) synthesize_answer st h =
    (([mkStep synthesize_answer u (merge st u)],
      match limit with
      | O => GraphRecursionError
      | S _ => Finished (merge st u)
      end), h1).
Proof. intros H. cbn [run]. unfold bind, ret. rewrite H. reflexivity. Qed.

(** After Execution the edge always finds a string in [data]. *)
Lemma edge_never_raises (st : AgentState) (h : history) :
  exists label mutated,
    should_continue_or_retry (merge st (fst (execute_sql_node db st h)))
    = Ok (label, mutated).
Proof.
  destruct (execute_sets_data db st h) as [d Hd].
  apply (decide_total _ d). unfold merge. cbn [data]. rewrite Hd. reflexivity.
Qed.

(** [retries] stays within the budget along every run, whatever the
    engine does with the edge's assignment. *)
Lemma run_within_budget (eng : engine) (limit : nat) :
  forall (n : node) (st : AgentState) (h : history),
    (0 <= retries st <= 3)%Z ->
    Forall (fun s => 0 <= retries (after s) <= 3)%Z
           (fst (fst (run llm db eng limit n st h)))
    /\ forall final,
        snd (fst (run llm db eng limit n st h)) = Finished final ->
        (0 <= retries final <= 3)%Z.
Proof.
  induction limit as [|limit IH]; intros n st h Hr.
  - rewrite run_out_of_steps. split; [constructor | discriminate].
  - destruct n.
    + destruct (generate_sql_node llm st h) as [u h1] eqn:E.
      pose proof (generate_keeps_retries llm st h) as K. rewrite E in K. cbn [fst] in K.
      rewrite (run_generate _ _ _ _ _ _ E). cbv zeta. cbn [fst snd].
      apply merge_keeps_retries in K.
      destruct (IH execute_sql (merge st u) h1) as [IH1 IH2]; [lia|].
      split; [constructor; [cbn [after]; lia | exact IH1] | exact IH2].
    + destruct (execute_sql_node db st h) as [u h1] eqn:E.
      pose proof (execute_keeps_retries db st h) as K. rewrite E in K. cbn [fst] in K.
      apply merge_keeps_retries in K.
      pose proof (edge_never_raises st h) as (label & mutated & D).
      rewrite E in D. cbn [fst] in D.
      rewrite (run_execute _ _ _ _ _ _ _ _ E D). cbv zeta. cbn [fst snd].
      assert (0 <= retries mutated <= 3)%Z as Hm.
      { destruct (decide_cases _ _ _ D) as [[_ ->]|(_ & -> & Hlt & _)];
          [lia | cbn [assign_retries retries]; lia]. }
      set (next_state := match eng with SharedState => mutated
                                   | ChannelCopy => merge st u end).
      assert (0 <= retries next_state <= 3)%Z as Hn
          by (subst next_state; destruct eng; lia).
      destruct (IH (match label with synthesize => synthesize_answer
                                | retry => generate_sql end) next_state h1 Hn)
        as [IH1 IH2].
      split; [constructor; [cbn [after]; lia | exact IH1] | exact IH2].
    + destruct (synthesize_answer_node llm st h) as [u h1] eqn:E.
      pose proof (synthesize_keeps_retries llm st h) as K. rewrite E in K. cbn [fst] in K.
      apply merge_keeps_retries in K.
      rewrite (run_synthesize _ _ _ _ _ _ E). cbn [fst snd].
      split.
      * constructor; [cbn [after]; lia | constructor].
      * destruct limit; [discriminate|]. intros final [= <-]. lia.
Qed.

(** [retries] never goes down along a run. *)
Lemma run_climbs (eng : engine) (limit : nat) :
  forall (n : node) (st : AgentState) (h : history),
    climbs (retries st)
           (map (fun s => retries (after s))
                (fst (fst (run llm db eng limit n st h)))).
Proof.
  induction limit as [|limit IH]; intros n st h.
  - rewrite run_out_of_steps. exact I.
  - destruct n.
    + destruct (generate_sql_node llm st h) as [u h1] eqn:E.
      pose proof (generate_keeps_retries llm st h) as K. rewrite E in K. cbn [fst] in K.
      rewrite (run_generate _ _ _ _ _ _ E). cbv zeta. cbn [fst snd map climbs after].
      apply merge_keeps_retries in K.
      split; [lia | apply IH].
    + destruct (execute_sql_node db st h) as [u h1] eqn:E.
      pose proof (execute_keeps_retries db st h) as K. rewrite E in K. cbn [fst] in K.
      apply merge_keeps_retries in K.
      pose proof (edge_never_raises st h) as (label & mutated & D).
      rewrite E in D. cbn [fst] in D.
      rewrite (run_execute _ _ _ _ _ _ _ _ E D). cbv zeta.
      cbn [fst snd map climbs after].
      split; [|apply IH].
      destruct (decide_cases _ _ _ D) as [[_ ->]|(_ & -> & Hlt & _)];
        destruct eng; cbn [assign_retries retries]; lia.
    + destruct (synthesize_answer_node llm st h) as [u h1] eqn:E.
      pose proof (synthesize_keeps_retries llm st h) as K. rewrite E in K. cbn [fst] in K.
      apply merge_keeps_retries in K.
      rewrite (run_synthesize _ _ _ _ _ _ E). cbn [fst snd map climbs after].
      split; [lia | exact I].
Qed.

(** No run ends in a fault of the edge: every collaborator failure has
    become a string in [data] by the time the edge reads it. *)
Lemma run_never_raises (eng : engine) (limit : nat) :
  forall (n : node) (st : AgentState) (h : history) (msg : string),
    snd (fst (run llm db eng limit n st h)) <> EdgeRaised msg.
Proof.
  induction limit as [|limit IH]; intros n st h msg.
  - rewrite run_out_of_steps. discriminate.
  - destruct n.
    + destruct (generate_sql_node llm st h) as [u h1] eqn:E.
      rewrite (run_generate _ _ _ _ _ _ E). cbv zeta. cbn [fst snd]. apply IH.
    + destruct (execute_sql_node db st h) as [u h1] eqn:E.
      pose proof (edge_never_raises st h) as (label & mutated & D).
      rewrite E in D. cbn [fst] in D.
      rewrite (run_execute _ _ _ _ _ _ _ _ E D). cbv zeta. cbn [fst snd]. apply IH.
    + destruct (synthesize_answer_node llm st h) as [u h1] eqn:E.
      rewrite (run_synthesize _ _ _ _ _ _ E). cbn [fst snd].
      destruct limit; discriminate.
Qed.

End Loop.

(* ================================================================= *)
(** ** A run that is sent back to Generation at every round *)

Section Rounds.

Variable llm : history -> string -> outcome.
Variable db : history -> string -> outcome.

Lemma count_DBRun_app (h h' : history) :
  count_DBRun (h ++ h')%list = count_DBRun h + count_DBRun h'.
Proof. unfold count_DBRun. rewrite filter_app, length_app. reflexivity. Qed.

Lemma str_in_error_prefix (e : string) : str_in "Error:" ("Error: " ++ e) = true.
Proof. reflexivity. Qed.

Lemma ping_pong_no_synthesis (n : node) (k : nat) :
  n <> synthesize_answer ->
  filter (node_eqb synthesize_answer) (ping_pong n k) = [].
Proof.
  revert n. induction k as [|k IH]; intros n Hn; [reflexivity|].
  cbn [ping_pong filter]. destruct n; try congruence; cbn [node_eqb];
    apply IH; discriminate.
Qed.

(** Every second step of such a run is a Generation. *)
Lemma ping_pong_generations (k : nat) :
  List.length (filter (node_eqb generate_sql) (ping_pong generate_sql k))
  = Nat.div2 (S k)
  /\ List.length (filter (node_eqb generate_sql) (ping_pong execute_sql k))
     = Nat.div2 k.
Proof.
  induction k as [|k [IHg IHe]]; [split; reflexivity|].
  split.
  - cbn [ping_pong filter node_eqb List.length]. rewrite IHe. reflexivity.
  - cbn [ping_pong filter node_eqb]. exact IHg.
Qed.

(** With the edge's assignment dropped, a model that never yields valid
    SQL (its text fails validation, or the call raises) keeps the run
    between Generation and Execution until the ceiling stops it. *)
Lemma invalid_model_loops (limit : nat) :
  (forall h p, match llm h p with
               | Returned t => invalid_sql (sanitize_sql (strip t)) = true
               | Raised _ => True
               end) ->
  forall (n : node) (st : AgentState) (h : history),
    n <> synthesize_answer ->
    (retries st < 3)%Z ->
    (n = execute_sql -> sql_query st = "") ->
    snd (fst (run llm db ChannelCopy limit n st h)) = GraphRecursionError
    /\ map ran (fst (fst (run llm db ChannelCopy limit n st h)))
       = ping_pong n limit
    /\ count_DBRun (snd (run llm db ChannelCopy limit n st h)) = count_DBRun h.
Proof.
  intros Hllm. induction limit as [|limit IH]; intros n st h Hn Hlt Hsql.
  - rewrite run_out_of_steps. repeat split.
  - destruct n; [| |congruence].
    + assert (exists u,
                 generate_sql_node llm st h
                 = (u, (h ++ [LLMInvoke (generation_prompt st)])%list)
                 /\ set_sql_query u = Some ""
                 /\ set_retries u = Some (retries st)) as (u & G & Hq & Hk).
      { pose proof (Hllm h (generation_prompt st)) as Hinv.
        destruct (llm h (generation_prompt st)) as [t|e] eqn:Ht.
        - pose proof (generate_returned llm st h t Ht) as G. rewrite Hinv in G.
          eexists. split; [exact G|]. split; reflexivity.
        - pose proof (generate_raised llm st h e Ht) as G.
          eexists. split; [exact G|]. split; reflexivity. }
      rewrite (run_generate llm db ChannelCopy limit st h _ _ G). cbv zeta.
      cbn [fst snd].
      destruct (IH execute_sql (merge st u)
                  (h ++ [LLMInvoke (generation_prompt st)])%list)
        as (Hr & Hp & Hc);
        [discriminate
        | rewrite (merge_keeps_retries st u Hk); exact Hlt
        | intros _; unfold merge; cbn [sql_query]; rewrite Hq; reflexivity |].
      split; [exact Hr|]. split.
      * cbn [map ran ping_pong]. rewrite Hp. reflexivity.
      * rewrite Hc, count_DBRun_app. cbn. lia.
    + pose proof (execute_no_sql db st h (Hsql eq_refl)) as E.
      set (u := {| set_sql_query := None; set_data := _;
                   set_answer := None; set_retries := _ |}) in E.
      pose proof (decide_retry (merge st u) "Error: No valid SQL to execute."
                    Hlt eq_refl eq_refl) as D.
      rewrite (run_execute llm db ChannelCopy limit st _ h h u retry E D).
      cbv zeta. cbn [fst snd].
      destruct (IH generate_sql (merge st u) h)
        as (Hr & Hp & Hc); [discriminate | exact Hlt | discriminate |].
      split; [exact Hr|]. split.
      * cbn [map ran ping_pong]. rewrite Hp. reflexivity.
      * exact Hc.
Qed.

Lemma climbs_sorted (r : Z) (l : list Z) :
  climbs r l -> StronglySorted Z.le (r :: l).
Proof.
  intros H. apply Sorted_StronglySorted; [exact Z.le_trans|].
  revert r H. induction l as [|x l IH]; intros r H.
  - constructor; constructor.
  - destruct H as [Hrx Hl]. constructor; [apply IH; exact Hl|].
    constructor. exact Hrx.
Qed.

End Rounds.

(* ================================================================= *)
(** ** The properties of the specification *)

(** C1: for every question whose run reaches END, [retries] never exceeds
    the retry budget of 3, at END and after every step on the way,
    whichever way the engine treats the edge's assignment; and the retry
    decision evaluated with [retries >= 3] goes to Synthesis whatever
    [data] holds, an error or not. *)
Theorem retry_budget_respected
  (llm db : history -> string -> outcome) (DATABASE_SCHEMA : string)
  (eng : engine) (limit : nat) (q : string) (final : AgentState) :
  snd (fst (stream llm db DATABASE_SCHEMA eng limit q)) = Finished final ->
  (retries final <= RETRY_BUDGET)%Z
  /\ Forall (fun s => (retries (after s) <= RETRY_BUDGET)%Z)
            (fst (fst (stream llm db DATABASE_SCHEMA eng limit q)))
  /\ forall st : AgentState,
      (retries st >= RETRY_BUDGET)%Z ->
      should_continue_or_retry st = Ok (synthesize, st).
Proof.
  intros Hfin. unfold stream, RETRY_BUDGET in *.
  destruct (run_within_budget llm db eng limit generate_sql
              (inputs DATABASE_SCHEMA q) []) as [Hall Hend].
  { cbn [inputs retries]. lia. }
  split; [apply (Hend final Hfin)|]. split.
  - eapply Forall_impl; [|exact Hall]. cbv beta. intros s Hs. lia.
  - intros st Hst. apply decide_exhausted. lia.
Qed.

Lemma retry_budget_respected_witness :
  exists final,
    snd (fst (stream (llm_always "not sql") (db_fails_first 2 "[]") "" SharedState
                RECURSION_LIMIT "asdf;;;")) = Finished final
    /\ (retries final <= RETRY_BUDGET)%Z.
Proof.
  eexists. split.
  - vm_compute. reflexivity.
  - eapply (retry_budget_respected (llm_always "not sql") (db_fails_first 2 "[]")
              "" SharedState RECURSION_LIMIT "asdf;;;").
    vm_compute. reflexivity.
Defined.

(** C2, as the specification words it, fails: the edge tests whether
    ["Error:"] occurs anywhere in [data], so a result that merely holds
    the marker, without beginning with it, is sent back to Generation. *)
Lemma retry_on_marker_inside :
  startswith "[('Error: disk quota',)]" "Error:" = false
  /\ should_continue_or_retry (state_with_data "[('Error: disk quota',)]" 0)
     = Ok (retry, state_with_data "[('Error: disk quota',)]" 1).
Proof. split; reflexivity. Qed.

(** C2, amended: below the budget of 3 the retry decision returns the
    retry branch if and only if [data] holds the marker ["Error:"]
    somewhere, and then [retries] grows by exactly 1 and nothing else
    changes; for every [data] without the marker it goes to Synthesis and
    leaves the state as it is. *)
Theorem retry_iff_marker_occurs (st : AgentState) (d : string) :
  (retries st < RETRY_BUDGET)%Z ->
  data st = Some d ->
  ((exists a b, d = a ++ "Error:" ++ b) ->
   should_continue_or_retry st = Ok (retry, assign_retries st (retries st + 1)))
  /\ (~ (exists a b, d = a ++ "Error:" ++ b) ->
      should_continue_or_retry st = Ok (synthesize, st))
  /\ (forall st', should_continue_or_retry st = Ok (retry, st') ->
      (exists a b, d = a ++ "Error:" ++ b)
      /\ retries st' = (retries st + 1)%Z).
Proof.
  unfold RETRY_BUDGET. intros Hlt Hd. repeat split.
  - intros Hocc. apply str_in_occurs in Hocc.
    apply (decide_retry st d); assumption.
  - intros Hno. apply (decide_proceed st d); try assumption.
    destruct (str_in "Error:" d) eqn:E; [|reflexivity].
    exfalso. apply Hno. apply str_in_occurs. exact E.
  - destruct (decide_cases _ _ _ H) as [[Hl _]|(_ & _ & _ & d' & Hd' & Hin)];
      [discriminate|].
    rewrite Hd in Hd'. injection Hd' as <-. apply str_in_occurs. exact Hin.
  - destruct (decide_cases _ _ _ H) as [[Hl _]|(_ & -> & _)];
      [discriminate | reflexivity].
Qed.

Lemma retry_iff_marker_occurs_witness :
  should_continue_or_retry (state_with_data "Error: no such table: crops" 2)
  = Ok (retry, state_with_data "Error: no such table: crops" 3)
  /\ should_continue_or_retry (state_with_data "[('Bihar', 2010, 500)]" 2)
     = Ok (synthesize, state_with_data "[('Bihar', 2010, 500)]" 2).
Proof.
  split.
  - apply (proj1 (retry_iff_marker_occurs
                    (state_with_data "Error: no such table: crops" 2)
                    "Error: no such table: crops"
                    ltac:(vm_compute; reflexivity) eq_refl)).
    exists "", " no such table: crops". reflexivity.
  - apply (proj1 (proj2 (retry_iff_marker_occurs
                    (state_with_data "[('Bihar', 2010, 500)]" 2)
                    "[('Bihar', 2010, 500)]"
                    ltac:(vm_compute; reflexivity) eq_refl))).
    intros Hocc. apply str_in_occurs in Hocc. discriminate Hocc.
Defined.

(** C4, as the specification words it, fails: Execution does not repeat
    the minimum-length test.  A state whose [sql_query] is the 9
    characters ["SELECT 1;"] is refused by Generation's validation and
    yet is submitted to the store. *)
Lemma short_query_is_submitted :
  invalid_sql (sql_query (state_with_sql "SELECT 1;")) = true
  /\ execute_sql_node (db_fails_first 0 "[(1,)]") (state_with_sql "SELECT 1;") []
     = ({| set_sql_query := None; set_data := Some "[(1,)]";
           set_answer := None; set_retries := Some 0%Z |},
        [DBRun "SELECT 1;"]).
Proof. split; reflexivity. Qed.

(** C4, amended: in the Execution stage, for every state whose
    [sql_query] is empty, or whose re-cleaned text does not begin (case
    ignored) with one of the five verbs, the stage returns a result
    beginning with ["Error:"] in [data], keeps [retries], and submits
    nothing to the store: the history of calls is unchanged.  The
    minimum length is not tested again. *)
Theorem execute_refuses_without_store
  (db : history -> string -> outcome) (st : AgentState) (h : history) :
  sql_query st = ""
  \/ startswith_any (lower (reclean_sql (sql_query st))) SQL_VERBS = false ->
  snd (execute_sql_node db st h) = h
  /\ set_retries (fst (execute_sql_node db st h)) = Some (retries st)
  /\ exists detail,
      set_data (fst (execute_sql_node db st h)) = Some ("Error:" ++ detail).
Proof.
  intros H. destruct (String.eqb_spec (sql_query st) "") as [He|Hne].
  - rewrite (execute_no_sql db st h He). cbn [fst snd set_data set_retries].
    repeat split. exists " No valid SQL to execute.". reflexivity.
  - destruct H as [H|H]; [contradiction|].
    rewrite (execute_bad_prefix db st h Hne H). cbn [fst snd set_data set_retries].
    repeat split. exists " Invalid SQL, stopping execution.". reflexivity.
Qed.

Lemma execute_refuses_without_store_witness :
  snd (execute_sql_node (db_fails_first 0 "[(1,)]")
         (state_with_sql "DROP TABLE crops;") [DBRun "SELECT 1;"])
  = [DBRun "SELECT 1;"].
Proof.
  apply (execute_refuses_without_store (db_fails_first 0 "[(1,)]")
           (state_with_sql "DROP TABLE crops;") [DBRun "SELECT 1;"]).
  right. vm_compute. reflexivity.
Defined.

(** C5, as the specification words it, fails on the value it names: the
    fenced output is sanitized to ["SELECT 1;"], but that text has 9
    characters, so Generation stores an empty [sql_query], not
    ["SELECT 1;"]. *)
Lemma fenced_select_1_is_not_stored :
  sanitize_sql (strip (fenced "SELECT 1;")) = "SELECT 1;"
  /\ fst (generate_sql_node (llm_always (fenced "SELECT 1;"))
            (state_with_sql "") [])
     = {| set_sql_query := Some "";
          set_data := Some "Error: Invalid SQL generated.";
          set_answer := None; set_retries := Some 0%Z |}.
Proof. split; reflexivity. Qed.

(** C5, amended: for every text the model may return, sanitization gives
    the same SQL for the text wrapped in code fences as for the text
    itself, and Generation returns the same update for both.  For
    ["SELECT 1;"] that common sanitized text is ["SELECT 1;"], which is 9
    characters long, below the minimum of 10, so the [sql_query] stored
    is empty, with the error result in [data]; for a statement of 10
    characters, ["SELECT 10;"], the stored [sql_query] is the statement
    itself. *)
Theorem fenced_and_plain_agree (body : string) (st : AgentState) (h : history) :
  sanitize_sql (strip (fenced body)) = sanitize_sql (strip body)
  /\ fst (generate_sql_node (llm_always (fenced body)) st h)
     = fst (generate_sql_node (llm_always body) st h)
  /\ sanitize_sql (strip (fenced "SELECT 1;")) = "SELECT 1;"
  /\ fst (generate_sql_node (llm_always (fenced "SELECT 1;")) st h)
     = {| set_sql_query := Some "";
          set_data := Some "Error: Invalid SQL generated.";
          set_answer := None; set_retries := Some (retries st) |}
  /\ fst (generate_sql_node (llm_always (fenced "SELECT 10;")) st h)
     = {| set_sql_query := Some "SELECT 10;";
          set_data := None;
          set_answer := None; set_retries := Some (retries st) |}.
Proof.
  split; [apply sanitize_fenced|]. split.
  - rewrite (generate_returned (llm_always (fenced body)) st h _ eq_refl).
    rewrite (generate_returned (llm_always body) st h _ eq_refl).
    rewrite sanitize_fenced. reflexivity.
  - rewrite (generate_returned (llm_always (fenced "SELECT 1;")) st h _ eq_refl).
    rewrite (generate_returned (llm_always (fenced "SELECT 10;")) st h _ eq_refl).
    repeat split.
Qed.

(** C6: Generation's validation rejects every sanitized text of exactly 9
    characters (so also one that starts with SELECT), storing an empty
    [sql_query] and the error result; and accepts every sanitized text of
    10 or more characters that begins, case ignored, with one of SELECT,
    INSERT, UPDATE, DELETE, CREATE, storing it as [sql_query]. *)
Theorem validation_boundary
  (llm : history -> string -> outcome) (st : AgentState) (h : history)
  (content : string) :
  llm h (generation_prompt st) = Returned content ->
  (String.length (sanitize_sql (strip content)) = 9 ->
   invalid_sql (sanitize_sql (strip content)) = true
   /\ fst (generate_sql_node llm st h)
      = {| set_sql_query := Some "";
           set_data := Some "Error: Invalid SQL generated.";
           set_answer := None; set_retries := Some (retries st) |})
  /\ (10 <= String.length (sanitize_sql (strip content)) ->
      starts_with_verb_ci (sanitize_sql (strip content)) = true ->
      invalid_sql (sanitize_sql (strip content)) = false
      /\ fst (generate_sql_node llm st h)
         = {| set_sql_query := Some (sanitize_sql (strip content));
              set_data := None;
              set_answer := None; set_retries := Some (retries st) |}).
Proof.
  intros Hllm. rewrite (generate_returned llm st h content Hllm). cbn [fst].
  set (sql := sanitize_sql (strip content)). split.
  - intros Hlen.
    assert (invalid_sql sql = true) as ->; [|split; reflexivity].
    unfold invalid_sql. rewrite Hlen. cbn [Nat.ltb Nat.leb].
    apply orb_true_iff. left. apply orb_true_r.
  - intros Hlen Hverb.
    assert (invalid_sql sql = false) as ->; [|split; reflexivity].
    unfold invalid_sql, truthy.
    rewrite (verb_ci_accepted sql Hverb).
    replace (String.length sql <? 10)%nat with false
      by (symmetry; apply Nat.ltb_ge; exact Hlen).
    destruct (String.eqb_spec sql "") as [E|_]; [|reflexivity].
    rewrite E in Hlen. cbn in Hlen. lia.
Qed.

Lemma validation_boundary_witness :
  fst (generate_sql_node (llm_always "SELECT 1;") (state_with_sql "") [])
  = {| set_sql_query := Some "";
       set_data := Some "Error: Invalid SQL generated.";
       set_answer := None; set_retries := Some 0%Z |}
  /\ fst (generate_sql_node (llm_always "select 10;") (state_with_sql "") [])
     = {| set_sql_query := Some "select 10;";
          set_data := None;
          set_answer := None; set_retries := Some 0%Z |}.
Proof.
  split.
  - apply (proj1 (validation_boundary (llm_always "SELECT 1;")
                    (state_with_sql "") [] "SELECT 1;" eq_refl)).
    vm_compute. reflexivity.
  - apply (proj2 (validation_boundary (llm_always "select 10;")
                    (state_with_sql "") [] "select 10;" eq_refl)).
    + vm_compute. lia.
    + vm_compute. reflexivity.
Defined.

(** C8: whenever the store raises during Execution, the stage returns
    normally with ["Error: <detail>"] in [data] and the [retries] it was
    given; whatever the store does, the stage hands back an update with
    [data] set, on which the conditional edge that follows does not raise
    either; and no run of the graph ends in a fault. *)
Theorem store_failure_is_captured
  (db : history -> string -> outcome) (st : AgentState) (h : history)
  (detail : string) :
  sql_query st <> "" ->
  startswith_any (lower (reclean_sql (sql_query st))) SQL_VERBS = true ->
  db h (reclean_sql (sql_query st)) = Raised detail ->
  execute_sql_node db st h
  = ({| set_sql_query := None; set_data := Some ("Error: " ++ detail);
        set_answer := None; set_retries := Some (retries st) |},
     (h ++ [DBRun (reclean_sql (sql_query st))])%list)
  /\ (exists label mutated,
        should_continue_or_retry (merge st (fst (execute_sql_node db st h)))
        = Ok (label, mutated))
  /\ forall llm DATABASE_SCHEMA eng limit q msg,
      snd (fst (stream llm db DATABASE_SCHEMA eng limit q)) <> EdgeRaised msg.
Proof.
  intros Hne Hverb Hraise. split; [|split].
  - rewrite (execute_submits db st h Hne Hverb), Hraise. reflexivity.
  - apply edge_never_raises.
  - intros llm DATABASE_SCHEMA eng limit q msg. apply run_never_raises.
Qed.

Lemma store_failure_is_captured_witness :
  execute_sql_node (db_fails_first 1 "[]")
    (state_with_sql "SELECT rice FROM crops;") []
  = ({| set_sql_query := None;
        set_data := Some "Error: no such table: crops";
        set_answer := None; set_retries := Some 0%Z |},
     [DBRun "SELECT rice FROM crops;"]).
Proof.
  apply (store_failure_is_captured (db_fails_first 1 "[]")
           (state_with_sql "SELECT rice FROM crops;") []
           "no such table: crops").
  - discriminate.
  - vm_compute. reflexivity.
  - vm_compute. reflexivity.
Defined.

(** C10: sanitization deletes the tokens "```sql", "```", "*/" and "SQL:"
    wherever they stand in the generated text, not only around it: for
    every query that holds one of them at any position (in the middle of
    a string literal, say), returned by the model as it is or wrapped in
    code fences, the sanitized text is strictly shorter than the query
    with only its surrounding white space removed, and the [sql_query]
    that Generation stores differs from that query. *)
Theorem sanitization_reaches_inside
  (llm : history -> string -> outcome) (st : AgentState) (h : history)
  (content body tok a b : string) :
  In tok SANITIZED_TOKENS ->
  body = a ++ tok ++ b ->
  content = body \/ content = fenced body ->
  llm h (generation_prompt st) = Returned content ->
  String.length (sanitize_sql (strip content)) < String.length (strip body)
  /\ sanitize_sql (strip content) <> strip body
  /\ set_sql_query (fst (generate_sql_node llm st h)) <> Some (strip body).
Proof.
  intros Htok Hocc Hwrap Hllm.
  assert (str_in tok (strip body) = true) as Hin.
  { apply token_survives_strip; [exact Htok|].
    apply str_in_occurs. exists a, b. exact Hocc. }
  assert (sanitize_sql (strip content) = sanitize_sql (strip body)) as Hsame
      by (destruct Hwrap as [->| ->]; [reflexivity | apply sanitize_fenced]).
  assert (String.length (sanitize_sql (strip content))
          < String.length (strip body)) as Hshort.
  { rewrite Hsame.
    pose proof (sanitize_shrinks (strip body) tok Htok) as Hlt.
    rewrite strip_idempotent in Hlt. apply Hlt. exact Hin. }
  split; [exact Hshort|]. split.
  - intros E. rewrite E in Hshort. lia.
  - rewrite (generate_returned llm st h content Hllm). cbn [fst].
    destruct (invalid_sql _); cbn [set_sql_query]; intros [= E].
    + rewrite <- E in Hshort. cbn [String.length] in Hshort. lia.
    + rewrite E in Hshort. lia.
Qed.

Lemma sanitization_reaches_inside_witness :
  set_sql_query
    (fst (generate_sql_node
            (llm_always
               (fenced "SELECT state FROM crops WHERE note = 'SQL: ok';"))
            (state_with_sql "") []))
  = Some "SELECT state FROM crops WHERE note = ' ok';"
  /\ set_sql_query
       (fst (generate_sql_node
               (llm_always
                  (fenced "SELECT state FROM crops WHERE note = 'SQL: ok';"))
               (state_with_sql "") []))
     <> Some (strip "SELECT state FROM crops WHERE note = 'SQL: ok';").
Proof.
  split; [reflexivity|].
  apply (sanitization_reaches_inside
           (llm_always (fenced "SELECT state FROM crops WHERE note = 'SQL: ok';"))
           (state_with_sql "") []
           (fenced "SELECT state FROM crops WHERE note = 'SQL: ok';")
           "SELECT state FROM crops WHERE note = 'SQL: ok';" "SQL:"
           "SELECT state FROM crops WHERE note = '" " ok';").
  - right; right; right; left. reflexivity.
  - reflexivity.
  - right. reflexivity.
  - reflexivity.
Defined.

(* ================================================================= *)
(** ** What each node does to the history and to the update *)

Section Effects.

Variable llm : history -> string -> outcome.
Variable db : history -> string -> outcome.

(** Generation calls the model once, and stores either no SQL or SQL
    that passed validation. *)
Lemma generate_effect (st : AgentState) (h : history) :
  exists u,
    generate_sql_node llm st h
    = (u, (h ++ [LLMInvoke (generation_prompt st)])%list)
    /\ set_retries u = Some (retries st)
    /\ set_answer u = None
    /\ exists sql, set_sql_query u = Some sql
                   /\ (sql = "" \/ invalid_sql sql = false).
Proof.
  destruct (llm h (generation_prompt st)) as [content|e] eqn:E.
  - rewrite (generate_returned llm st h content E).
    destruct (invalid_sql (sanitize_sql (strip content))) eqn:V;
      eexists; (split; [reflexivity|]); cbn;
      (split; [reflexivity|]); (split; [reflexivity|]);
      eexists; (split; [reflexivity|]); auto.
  - rewrite (generate_raised llm st h e E).
    eexists; (split; [reflexivity|]); cbn;
      (split; [reflexivity|]); (split; [reflexivity|]);
      eexists; (split; [reflexivity|]); auto.
Qed.

(** Execution either leaves the history alone or appends one store
    call, whose query is the re-cleaned [sql_query] and begins with a
    verb; it sets [data] and nothing but [data] and [retries]. *)
Lemma execute_effect (st : AgentState) (h : history) :
  exists u h1,
    execute_sql_node db st h = (u, h1)
    /\ (h1 = h
        \/ (h1 = (h ++ [DBRun (reclean_sql (sql_query st))])%list
            /\ sql_query st <> ""
            /\ startswith_any (lower (reclean_sql (sql_query st))) SQL_VERBS
               = true))
    /\ set_retries u = Some (retries st)
    /\ set_answer u = None
    /\ set_sql_query u = None
    /\ exists d, set_data u = Some d.
Proof.
  destruct (String.eqb_spec (sql_query st) "") as [He|Hne].
  - rewrite (execute_no_sql db st h He). eexists _, _.
    split; [reflexivity|]. split; [left; reflexivity|]. cbn.
    repeat (split; [reflexivity|]). eexists; reflexivity.
  - destruct (startswith_any (lower (reclean_sql (sql_query st))) SQL_VERBS)
      eqn:Hv.
    + rewrite (execute_submits db st h Hne Hv). eexists _, _.
      split; [reflexivity|]. split; [right; auto|]. cbn.
      repeat (split; [reflexivity|]). eexists; reflexivity.
    + rewrite (execute_bad_prefix db st h Hne Hv). eexists _, _.
      split; [reflexivity|]. split; [left; reflexivity|]. cbn.
      repeat (split; [reflexivity|]). eexists; reflexivity.
Qed.

Lemma invocations_cons (n : node) (s : superstep) (trace : list superstep) :
  invocations n (s :: trace)
  = (if node_eqb n (ran s) then 1 else 0) + invocations n trace.
Proof.
  unfold invocations. cbn [map filter].
  destruct (node_eqb n (ran s)); reflexivity.
Qed.

Lemma invocations_app (n : node) (t1 t2 : list superstep) :
  invocations n (t1 ++ t2) = invocations n t1 + invocations n t2.
Proof.
  unfold invocations. rewrite map_app, filter_app, length_app. reflexivity.
Qed.

Lemma count_LLMInvoke_app (h h' : history) :
  count_LLMInvoke (h ++ h')%list = count_LLMInvoke h + count_LLMInvoke h'.
Proof. unfold count_LLMInvoke. rewrite filter_app, length_app. reflexivity. Qed.

Lemma walk_extend (n m : node) (path : list node) :
  edge n m = true -> walk m path = true -> walk n (n :: path) = true.
Proof.
  intros He Hw. cbn [walk].
  replace (node_eqb n n) with true by (destruct n; reflexivity).
  destruct path as [|k rest]; [reflexivity|].
  cbn [andb]. cbn [walk] in Hw. apply andb_true_iff in Hw as [Hk Hrest].
  assert (k = m) as -> by (destruct m, k; try discriminate; reflexivity).
  rewrite He. cbn [andb walk].
  replace (node_eqb m m) with true by (destruct m; reflexivity).
  exact Hrest.
Qed.

End Effects.

(* ================================================================= *)
(** ** Invariants of every run, whatever the engine *)

Section Invariants.

Variable llm : history -> string -> outcome.
Variable db : history -> string -> outcome.

(** The steps of a run follow the edges of the graph.  A run that ends
    normally took fewer steps than the ceiling and ends on Synthesis,
    which ran once and set the answer; a run stopped by the ceiling took
    exactly as many steps as the ceiling, and Synthesis ran at most
    once, as its last step. *)
Lemma run_shape (eng : engine) (limit : nat) :
  forall (n : node) (st : AgentState) (h : history),
    walk n (map ran (fst (fst (run llm db eng limit n st h)))) = true
    /\ List.length (fst (fst (run llm db eng limit n st h))) <= limit
    /\ match snd (fst (run llm db eng limit n st h)) with
       | Finished final =>
           List.length (fst (fst (run llm db eng limit n st h))) < limit
           /\ exists tr s,
               fst (fst (run llm db eng limit n st h)) = (tr ++ [s])%list
               /\ ran s = synthesize_answer /\ after s = final
               /\ invocations synthesize_answer tr = 0
               /\ exists a,
                   set_answer (returned s) = Some a /\ answer final = Some a
                   /\ ((exists content, a = strip content)
                       \/ exists e, a = "Error synthesizing answer: " ++ e)
       | GraphRecursionError =>
           List.length (fst (fst (run llm db eng limit n st h))) = limit
           /\ (invocations synthesize_answer
                 (fst (fst (run llm db eng limit n st h))) = 0
               \/ exists tr s,
                   fst (fst (run llm db eng limit n st h)) = (tr ++ [s])%list
                   /\ ran s = synthesize_answer
                   /\ invocations synthesize_answer tr = 0)
       | EdgeRaised _ => False
       end.
Proof.
  induction limit as [|limit IH]; intros n st h.
  - rewrite run_out_of_steps. cbn.
    split; [reflexivity|]. split; [lia|]. split; [reflexivity|].
    left. reflexivity.
  - destruct n.
    + destruct (generate_sql_node llm st h) as [u h1] eqn:E.
      rewrite (run_generate llm db eng limit st h h1 u E). cbv zeta.
      specialize (IH execute_sql (merge st u) h1).
      destruct (run llm db eng limit execute_sql (merge st u) h1)
        as [[tr r] h2]. cbn [fst snd] in *.
      destruct IH as (Hw & Hl & Hr). split; [|split].
      * cbn [map ran]. apply (walk_extend _ execute_sql); [reflexivity | exact Hw].
      * cbn [List.length]. lia.
      * destruct r as [final| |msg]; [| |exact Hr].
        -- destruct Hr as (Hlt & tr' & s & -> & Hs & Hf & Hn & Ha).
           split; [cbn [List.length] in *; lia|].
           exists (mkStep generate_sql u (merge st u) :: tr'), s.
           split; [reflexivity|]. split; [exact Hs|]. split; [exact Hf|].
           split; [rewrite invocations_cons; cbn; exact Hn | exact Ha].
        -- destruct Hr as [Hlen Hn]. split; [cbn [List.length]; lia|].
           destruct Hn as [Hn|(tr' & s & -> & Hs & Hn)].
           ++ left. rewrite invocations_cons. cbn. exact Hn.
           ++ right. exists (mkStep generate_sql u (merge st u) :: tr'), s.
              split; [reflexivity|]. split; [exact Hs|].
              rewrite invocations_cons. cbn. exact Hn.
    + destruct (execute_sql_node db st h) as [u h1] eqn:E.
      pose proof (edge_never_raises db st h) as (label & mutated & D).
      rewrite E in D. cbn [fst] in D.
      rewrite (run_execute llm db eng limit st mutated h h1 u label E D).
      cbv zeta.
      set (next_state := match eng with SharedState => mutated
                                   | ChannelCopy => merge st u end).
      set (next := match label with synthesize => synthesize_answer
                               | retry => generate_sql end).
      specialize (IH next next_state h1).
      destruct (run llm db eng limit next next_state h1) as [[tr r] h2].
      cbn [fst snd] in *.
      destruct IH as (Hw & Hl & Hr). split; [|split].
      * cbn [map ran]. apply (walk_extend _ next);
          [subst next; destruct label; reflexivity | exact Hw].
      * cbn [List.length]. lia.
      * destruct r as [final| |msg]; [| |exact Hr].
        -- destruct Hr as (Hlt & tr' & s & -> & Hs & Hf & Hn & Ha).
           split; [cbn [List.length] in *; lia|].
           exists (mkStep execute_sql u next_state :: tr'), s.
           split; [reflexivity|]. split; [exact Hs|]. split; [exact Hf|].
           split; [rewrite invocations_cons; cbn; exact Hn | exact Ha].
        -- destruct Hr as [Hlen Hn]. split; [cbn [List.length]; lia|].
           destruct Hn as [Hn|(tr' & s & -> & Hs & Hn)].
           ++ left. rewrite invocations_cons. cbn. exact Hn.
           ++ right. exists (mkStep execute_sql u next_state :: tr'), s.
              split; [reflexivity|]. split; [exact Hs|].
              rewrite invocations_cons. cbn. exact Hn.
    + pose proof (synthesize_calls_once llm st h) as S.
      rewrite (run_synthesize llm db eng limit st h _ _ S). cbn [fst snd].
      split; [reflexivity|]. split; [cbn; lia|].
      destruct limit.
      * split; [reflexivity|]. right. eexists [], _.
        split; [reflexivity|]. split; reflexivity.
      * split; [cbn; lia|].
        eexists [], _. split; [reflexivity|]. split; [reflexivity|].
        split; [reflexivity|]. split; [reflexivity|].
        eexists. split; [reflexivity|]. split; [reflexivity|].
        destruct (llm h (synthesis_prompt st)); [left | right];
          eexists; reflexivity.
Qed.

End Invariants.

Section Accounting.

Variable llm : history -> string -> outcome.
Variable db : history -> string -> outcome.

Lemma decide_keeps_fields (st st' : AgentState) (label : route) :
  should_continue_or_retry st = Ok (label, st') ->
  question st' = question st /\ schema st' = schema st
  /\ sql_query st' = sql_query st /\ data st' = data st
  /\ answer st' = answer st.
Proof.
  intros D. destruct (decide_cases _ _ _ D) as [[_ ->]|(_ & -> & _)];
    repeat split.
Qed.

(** The question and the schema are never written, and the answer is
    written by Synthesis only. *)
Lemma run_frame (eng : engine) (limit : nat) :
  forall (n : node) (st : AgentState) (h : history),
    Forall (fun s => question (after s) = question st
                     /\ schema (after s) = schema st
                     /\ (ran s <> synthesize_answer ->
                         answer (after s) = answer st))
           (fst (fst (run llm db eng limit n st h))).
Proof.
  induction limit as [|limit IH]; intros n st h.
  - rewrite run_out_of_steps. constructor.
  - destruct n.
    + destruct (generate_effect llm st h) as (u & E & _ & Ha & _).
      rewrite (run_generate llm db eng limit st h _ u E). cbv zeta. cbn [fst snd].
      assert (answer (merge st u) = answer st) as Hans
          by (unfold merge; cbn [answer]; rewrite Ha; reflexivity).
      constructor; [cbn [after ran]; repeat split; intros _; exact Hans|].
      eapply Forall_impl; [|apply (IH execute_sql (merge st u))].
      cbv beta. intros s (Hq & Hs & Hx). rewrite <- Hans. auto.
    + destruct (execute_effect db st h) as (u & h1 & E & _ & _ & Ha & _).
      pose proof (edge_never_raises db st h) as (label & mutated & D).
      rewrite E in D. cbn [fst] in D.
      rewrite (run_execute llm db eng limit st mutated h h1 u label E D).
      cbv zeta. cbn [fst snd].
      assert (answer (merge st u) = answer st) as Hans
          by (unfold merge; cbn [answer]; rewrite Ha; reflexivity).
      destruct (decide_keeps_fields _ _ _ D) as (Mq & Ms & _ & _ & Ma).
      set (next_state := match eng with SharedState => mutated
                                   | ChannelCopy => merge st u end).
      assert (question next_state = question st /\ schema next_state = schema st
              /\ answer next_state = answer st) as (Nq & Ns & Na).
      { subst next_state. destruct eng.
        - rewrite Mq, Ms, Ma. repeat split. exact Hans.
        - repeat split. exact Hans. }
      constructor; [cbn [after ran]; repeat split; auto|].
      eapply Forall_impl; [|apply (IH _ next_state)].
      cbv beta. intros s (Hq & Hs & Hx). rewrite <- Nq, <- Ns, <- Na. auto.
    + pose proof (synthesize_calls_once llm st h) as S.
      rewrite (run_synthesize llm db eng limit st h _ _ S). cbn [fst snd].
      constructor; [|constructor]. cbn [after ran]. repeat split.
      intros H. congruence.
Qed.

(** The history only grows; the model is called once per Generation and
    once per Synthesis, the store at most once per Execution, and only
    with the re-cleaned form of SQL that Generation validated. *)
Lemma run_calls (eng : engine) (limit : nat) :
  forall (n : node) (st : AgentState) (h : history),
    (n = execute_sql -> sql_query st = "" \/ invalid_sql (sql_query st) = false) ->
    exists added,
      snd (run llm db eng limit n st h) = (h ++ added)%list
      /\ count_LLMInvoke added
         = invocations generate_sql (fst (fst (run llm db eng limit n st h)))
           + invocations synthesize_answer
               (fst (fst (run llm db eng limit n st h)))
      /\ count_DBRun added
         <= invocations execute_sql (fst (fst (run llm db eng limit n st h)))
      /\ forall query,
          In (DBRun query) added ->
          startswith_any (lower query) SQL_VERBS = true
          /\ exists sql, invalid_sql sql = false /\ query = reclean_sql sql.
Proof.
  induction limit as [|limit IH]; intros n st h Hpre.
  - rewrite run_out_of_steps. exists []. cbn [fst snd]. rewrite app_nil_r.
    split; [reflexivity|]. split; [reflexivity|]. split; [cbn; lia|].
    intros query [].
  - destruct n.
    + destruct (generate_effect llm st h) as (u & E & _ & _ & sql & Hq & Hsql).
      rewrite (run_generate llm db eng limit st h _ u E). cbv zeta. cbn [fst snd].
      destruct (IH execute_sql (merge st u)
                  (h ++ [LLMInvoke (generation_prompt st)])%list)
        as (added & Hh & Hl & Hd & Hs).
      { intros _. unfold merge. cbn [sql_query]. rewrite Hq. exact Hsql. }
      exists (LLMInvoke (generation_prompt st) :: added).
      split; [rewrite Hh, <- app_assoc; reflexivity|].
      rewrite !invocations_cons. cbn [ran node_eqb].
      change (count_LLMInvoke (LLMInvoke (generation_prompt st) :: added))
        with (S (count_LLMInvoke added)).
      change (count_DBRun (LLMInvoke (generation_prompt st) :: added))
        with (count_DBRun added).
      split; [lia|]. split; [lia|].
      intros query [Hin|Hin]; [discriminate | apply Hs; exact Hin].
    + destruct (execute_effect db st h) as (u & h1 & E & Hh1 & _).
      pose proof (edge_never_raises db st h) as (label & mutated & D).
      rewrite E in D. cbn [fst] in D.
      rewrite (run_execute llm db eng limit st mutated h h1 u label E D).
      cbv zeta. cbn [fst snd].
      set (next_state := match eng with SharedState => mutated
                                   | ChannelCopy => merge st u end).
      set (next := match label with synthesize => synthesize_answer
                               | retry => generate_sql end).
      destruct (IH next next_state h1) as (added & Hh & Hl & Hd & Hs).
      { subst next. destruct label; discriminate. }
      rewrite !invocations_cons. cbn [ran node_eqb].
      destruct Hh1 as [->|(-> & Hne & Hverb)].
      * exists added. split; [exact Hh|]. split; [lia|]. split; [lia | exact Hs].
      * exists (DBRun (reclean_sql (sql_query st)) :: added).
        split; [rewrite Hh, <- app_assoc; reflexivity|].
        change (count_LLMInvoke (DBRun (reclean_sql (sql_query st)) :: added))
          with (count_LLMInvoke added).
        change (count_DBRun (DBRun (reclean_sql (sql_query st)) :: added))
          with (S (count_DBRun added)).
        split; [lia|]. split; [lia|].
        intros query [Hin|Hin]; [|apply Hs; exact Hin].
        injection Hin as <-. split; [exact Hverb|].
        exists (sql_query st). split; [|reflexivity].
        destruct (Hpre eq_refl) as [He|Hv]; [contradiction | exact Hv].
    + pose proof (synthesize_calls_once llm st h) as S.
      rewrite (run_synthesize llm db eng limit st h _ _ S). cbn [fst snd].
      exists [LLMInvoke (synthesis_prompt st)].
      split; [reflexivity|]. split; [reflexivity|]. split; [cbn; lia|].
      intros query [Hin|[]]. discriminate.
Qed.

End Accounting.

(* ================================================================= *)
(** ** Validation read backwards, and text without tokens *)

Section CleanText.

Lemma upper_letter_same (a c : ascii) :
  is_upper_letter a = true -> lower_char a = lower_char c ->
  same_letter a c = true.
Proof.
  unfold is_upper_letter, same_letter, lower_char. intros Ha.
  rewrite Ha. cbn [orb].
  apply andb_true_iff in Ha as [H1 H2]. apply Nat.leb_le in H1, H2.
  destruct (((65 <=? nat_of_ascii c) && (nat_of_ascii c <=? 90)
             || (192 <=? nat_of_ascii c) && (nat_of_ascii c <=? 222)
                && negb (nat_of_ascii c =? 215))%nat) eqn:Hc; intros E.
  - assert (nat_of_ascii c <= 222) as Hle.
    { apply orb_true_iff in Hc as [Hc|Hc].
      - apply andb_true_iff in Hc as [_ Hc]. apply Nat.leb_le in Hc. lia.
      - apply andb_true_iff in Hc as [Hc _].
        apply andb_true_iff in Hc as [_ Hc]. apply Nat.leb_le in Hc. lia. }
    apply (f_equal nat_of_ascii) in E.
    rewrite !nat_ascii_embedding in E by lia.
    apply orb_true_iff. left. apply orb_true_iff. left.
    apply Nat.eqb_eq. lia.
  - apply (f_equal nat_of_ascii) in E.
    rewrite nat_ascii_embedding in E by lia.
    replace (nat_of_ascii a + 32 =? nat_of_ascii c)%nat with true
      by (symmetry; apply Nat.eqb_eq; exact E).
    cbn [andb]. rewrite orb_true_r. reflexivity.
Qed.

Lemma ci_prefix_of_lower (v s : string) :
  all_upper_letters v = true ->
  startswith (lower s) (lower v) = true -> ci_prefix v s = true.
Proof.
  unfold startswith. revert s. induction v as [|a v IH]; intros s Hv H.
  - reflexivity.
  - destruct s as [|c s]; [discriminate|].
    cbn [all_upper_letters] in Hv. apply andb_true_iff in Hv as [Ha Hv].
    cbn [lower String.prefix] in H.
    destruct (ascii_dec (lower_char a) (lower_char c)) as [E|]; [|discriminate].
    cbn [ci_prefix]. rewrite (upper_letter_same a c Ha E). apply IH; assumption.
Qed.

(** What the code's test accepts begins, case ignored, with one of the
    five verbs. *)
Lemma accepted_verb_ci (s : string) :
  startswith_any (lower s) SQL_VERBS = true ->
  starts_with_verb_ci s = true.
Proof.
  unfold starts_with_verb_ci, startswith_any. intros H.
  apply existsb_exists in H as (v & Hv & H).
  change SQL_VERBS with (map lower SPEC_VERBS) in Hv.
  apply in_map_iff in Hv as (V & <- & HV).
  apply existsb_exists. exists V. split; [exact HV|].
  apply ci_prefix_of_lower; [|exact H].
  repeat (destruct HV as [<-|HV]; [reflexivity|]). destruct HV.
Qed.

Lemma delete_tokens_clean (s : string) :
  (forall tok, In tok SANITIZED_TOKENS -> str_in tok s = false) ->
  delete_tokens s = s.
Proof.
  intros H. unfold delete_tokens.
  rewrite (replace_miss s "```sql") by first [discriminate | apply H; cbn; auto].
  rewrite (replace_miss s "```") by first [discriminate | apply H; cbn; auto].
  rewrite (replace_miss s "*/") by first [discriminate | apply H; cbn; auto].
  rewrite (replace_miss s "SQL:") by first [discriminate | apply H; cbn; auto 6].
  reflexivity.
Qed.

Lemma sanitize_clean (s : string) :
  (forall tok, In tok SANITIZED_TOKENS -> str_in tok (strip s) = false) ->
  sanitize_sql (strip s) = strip s.
Proof.
  intros H.
  change (sanitize_sql (strip s)) with (strip (delete_tokens (strip (strip s)))).
  rewrite strip_idempotent, (delete_tokens_clean _ H). apply strip_idempotent.
Qed.

Lemma reclean_clean (s : string) :
  str_in "*/" (strip s) = false -> str_in "```" (strip s) = false ->
  reclean_sql (strip s) = strip s.
Proof.
  intros H1 H2. unfold reclean_sql. rewrite strip_idempotent.
  rewrite (replace_miss (strip s) "*/") by first [discriminate | exact H1].
  rewrite (replace_miss (strip s) "```") by first [discriminate | exact H2].
  apply strip_idempotent.
Qed.

Lemma final_step_last (tr : list superstep) (s : superstep) :
  final_step (tr ++ [s]) = Some s.
Proof.
  unfold final_step. rewrite map_app. cbn [map]. apply last_last.
Qed.

Lemma length_invocations (trace : list superstep) :
  List.length trace
  = invocations generate_sql trace + invocations execute_sql trace
    + invocations synthesize_answer trace.
Proof.
  induction trace as [|s trace IH]; [reflexivity|].
  rewrite !invocations_cons. cbn [List.length].
  destruct (ran s); cbn [node_eqb]; lia.
Qed.

End CleanText.

(* ================================================================= *)
(** ** Further properties of the code *)

(** X3: whenever [stream] ends normally, the answer the input handler
    displays is the answer Synthesis wrote into the final state: the
    model's stripped text, or "Error synthesizing answer: <detail>" when
    the model raised.  The handler's "couldn't generate an answer"
    branch is therefore never taken. *)
Theorem displayed_answer_is_synthesis
  (llm db : history -> string -> outcome) (DATABASE_SCHEMA : string)
  (eng : engine) (limit : nat) (q error_str : string) (final : AgentState) :
  snd (fst (stream llm db DATABASE_SCHEMA eng limit q)) = Finished final ->
  exists a,
    answer final = Some a
    /\ displayed_answer error_str (fst (stream llm db DATABASE_SCHEMA eng limit q))
       = a
    /\ ((exists content, a = strip content)
        \/ exists e, a = "Error synthesizing answer: " ++ e).
Proof.
  intros Hfin. unfold displayed_answer. rewrite Hfin. unfold stream in *.
  destruct (run_shape llm db eng limit generate_sql (inputs DATABASE_SCHEMA q) [])
    as (_ & _ & Hres).
  rewrite Hfin in Hres.
  destruct Hres as (_ & tr & s & Htr & Hs & _ & _ & a & Hset & Ha & Hform).
  exists a. split; [exact Ha|]. split; [|exact Hform].
  rewrite Htr, final_step_last, Hs, Hset. reflexivity.
Qed.

Lemma displayed_answer_is_synthesis_witness :
  exists a,
    displayed_answer ""
      (fst (stream (llm_scripted "SELECT rice FROM crops;" " 500 tonnes. ")
              (db_fails_first 0 "[(500,)]") ""
              ChannelCopy RECURSION_LIMIT "Rice in Bihar?")) = a
    /\ a = "500 tonnes.".
Proof.
  destruct (displayed_answer_is_synthesis
              (llm_scripted "SELECT rice FROM crops;" " 500 tonnes. ")
              (db_fails_first 0 "[(500,)]") "" ChannelCopy RECURSION_LIMIT
              "Rice in Bihar?" "" _ ltac:(vm_compute; reflexivity))
    as (a & _ & Hshown & _).
  exists a. split; [exact Hshown|].
  rewrite <- Hshown. vm_compute. reflexivity.
Defined.



(** X5: under either engine, a run calls the model exactly once for each
    Generation step and once for the Synthesis step, and the store at
    most once for each Execution step. *)
Theorem calls_match_steps
  (llm db : history -> string -> outcome) (DATABASE_SCHEMA : string)
  (eng : engine) (limit : nat) (q : string) :
  count_LLMInvoke (snd (stream llm db DATABASE_SCHEMA eng limit q))
  = invocations generate_sql (fst (fst (stream llm db DATABASE_SCHEMA eng limit q)))
    + invocations synthesize_answer
        (fst (fst (stream llm db DATABASE_SCHEMA eng limit q)))
  /\ count_DBRun (snd (stream llm db DATABASE_SCHEMA eng limit q))
     <= invocations execute_sql
          (fst (fst (stream llm db DATABASE_SCHEMA eng limit q))).
Proof.
  unfold stream.
  destruct (run_calls llm db eng limit generate_sql (inputs DATABASE_SCHEMA q) [])
    as (added & Hh & Hl & Hd & _); [discriminate|].
  rewrite Hh. cbn [app]. split; assumption.
Qed.

(** X6: under either engine, no step of a run changes the question or
    the schema, and the answer stays as the caller initialised it (the
    empty string) until Synthesis writes it. *)
Theorem question_and_schema_are_kept
  (llm db : history -> string -> outcome) (DATABASE_SCHEMA : string)
  (eng : engine) (limit : nat) (q : string) :
  Forall (fun s => question (after s) = q
                   /\ schema (after s) = DATABASE_SCHEMA
                   /\ (ran s <> synthesize_answer -> answer (after s) = Some ""))
         (fst (fst (stream llm db DATABASE_SCHEMA eng limit q))).
Proof.
  unfold stream.
  apply (run_frame llm db eng limit generate_sql (inputs DATABASE_SCHEMA q) []).
Qed.

(** X7: when the model raises during Generation, the stage stores no SQL
    and the result "Error during SQL generation: <detail>"; Execution
    then replaces that result by "Error: No valid SQL to execute."
    without calling the store, and below the budget the edge asks for a
    retry.  The model's own error detail is gone from the state before
    the next prompt is built. *)
Theorem model_failure_is_retried
  (llm db : history -> string -> outcome) (st : AgentState) (h : history)
  (detail : string) :
  llm h (generation_prompt st) = Raised detail ->
  (retries st < 3)%Z ->
  let r1 := generate_sql_node llm st h in
  let st1 := merge st (fst r1) in
  let r2 := execute_sql_node db st1 (snd r1) in
  let st2 := merge st1 (fst r2) in
  sql_query st1 = ""
  /\ data st1 = Some ("Error during SQL generation: " ++ detail)
  /\ snd r2 = (h ++ [LLMInvoke (generation_prompt st)])%list
  /\ data st2 = Some "Error: No valid SQL to execute."
  /\ should_continue_or_retry st2
     = Ok (retry, assign_retries st2 (retries st + 1)).
Proof.
  intros Hllm Hlt. cbv zeta.
  rewrite (generate_raised llm st h detail Hllm). cbn [fst snd].
  set (st1 := merge st _).
  rewrite (execute_no_sql db st1 _ eq_refl). cbn [fst snd].
  split; [reflexivity|]. split; [reflexivity|]. split; [reflexivity|].
  split; [reflexivity|].
  set (st2 := merge st1 _).
  exact (decide_retry st2 "Error: No valid SQL to execute." Hlt eq_refl eq_refl).
Qed.

Lemma model_failure_is_retried_witness :
  should_continue_or_retry
    (merge (merge (state_with_sql "SELECT rice FROM crops;")
              (fst (generate_sql_node (llm_down "Connection refused")
                      (state_with_sql "SELECT rice FROM crops;") [])))
       (fst (execute_sql_node (db_fails_first 0 "[]")
               (merge (state_with_sql "SELECT rice FROM crops;")
                  (fst (generate_sql_node (llm_down "Connection refused")
                          (state_with_sql "SELECT rice FROM crops;") [])))
               (snd (generate_sql_node (llm_down "Connection refused")
                       (state_with_sql "SELECT rice FROM crops;") [])))))
  = Ok (retry,
        {| question := "Top 5 rice producing districts in Bihar in 2010?";
           schema := "CREATE TABLE crops (state TEXT, year INTEGER, rice REAL)";
           sql_query := ""; data := Some "Error: No valid SQL to execute.";
           answer := Some ""; retries := 1 |}).
Proof.
  apply (model_failure_is_retried (llm_down "Connection refused")
           (db_fails_first 0 "[]") (state_with_sql "SELECT rice FROM crops;") []
           "Connection refused" eq_refl).
  vm_compute. reflexivity.
Defined.

(** X8: the edge and the prompt builder agree: whenever the edge sends
    the loop back to Generation, [data] holds a text with the marker, and
    the next generation prompt, built from the state the edge leaves or
    from the state it was given, is the plain prompt followed by the
    correction request quoting exactly that text. *)
Theorem retry_prompt_quotes_last_result (st st' : AgentState) :
  should_continue_or_retry st = Ok (retry, st') ->
  exists d,
    data st = Some d
    /\ generation_prompt st'
       = generation_prompt (without_data st') ++ correction_request d
    /\ generation_prompt st
       = generation_prompt (without_data st) ++ correction_request d.
Proof.
  intros D.
  destruct (decide_cases _ _ _ D) as [[Hl _]|(_ & -> & _ & d & Hd & Hin)];
    [discriminate|].
  exists d. split; [exact Hd|].
  assert (truthy d = true) as Ht.
  { unfold truthy. destruct d; [discriminate Hin | reflexivity]. }
  unfold generation_prompt, without_data, assign_retries.
  cbn [data question schema]. rewrite Hd, Ht, Hin. cbn [andb].
  unfold correction_request. split; reflexivity.
Qed.

Lemma retry_prompt_quotes_last_result_witness :
  exists d,
    data (state_with_data "Error: no such table: crops" 1) = Some d
    /\ generation_prompt (state_with_data "Error: no such table: crops" 2)
       = generation_prompt
           (without_data (state_with_data "Error: no such table: crops" 2))
         ++ correction_request d
    /\ generation_prompt (state_with_data "Error: no such table: crops" 1)
       = generation_prompt
           (without_data (state_with_data "Error: no such table: crops" 1))
         ++ correction_request d.
Proof.
  apply (retry_prompt_quotes_last_result
           (state_with_data "Error: no such table: crops" 1)
           (state_with_data "Error: no such table: crops" 2)).
  vm_compute. reflexivity.
Defined.

(** X9: Generation's validation accepts a sanitized text exactly when it
    has 10 or more characters and begins, ignoring the case of ASCII
    letters, with SELECT, INSERT, UPDATE, DELETE or CREATE; every other
    text (DROP, WITH, PRAGMA, prose) is rejected. *)
Theorem validation_exactly (s : string) :
  invalid_sql s = false
  <-> (10 <= String.length s /\ starts_with_verb_ci s = true).
Proof.
  unfold invalid_sql, truthy. split.
  - intros H. apply orb_false_iff in H as [H Hverb].
    apply orb_false_iff in H as [_ Hlen].
    apply negb_false_iff in Hverb. apply Nat.ltb_ge in Hlen.
    split; [exact Hlen | apply accepted_verb_ci; exact Hverb].
  - intros [Hlen Hverb]. rewrite (verb_ci_accepted s Hverb).
    replace (String.length s <? 10)%nat with false
      by (symmetry; apply Nat.ltb_ge; exact Hlen).
    destruct (String.eqb_spec s "") as [E|_]; [|reflexivity].
    rewrite E in Hlen. cbn in Hlen. lia.
Qed.

(** X10: a statement that holds none of the four tokens and passes
    validation reaches the store exactly as the model wrote it, up to
    the white space around it: Generation stores the stripped text as
    [sql_query], and Execution submits that same text. *)
Theorem clean_statement_reaches_store
  (llm db : history -> string -> outcome) (st : AgentState) (h : history)
  (content : string) :
  llm h (generation_prompt st) = Returned content ->
  (forall tok, In tok SANITIZED_TOKENS -> str_in tok (strip content) = false) ->
  invalid_sql (strip content) = false ->
  let r1 := generate_sql_node llm st h in
  set_sql_query (fst r1) = Some (strip content)
  /\ snd (execute_sql_node db (merge st (fst r1)) (snd r1))
     = (h ++ [LLMInvoke (generation_prompt st); DBRun (strip content)])%list.
Proof.
  intros Hllm Hclean Hvalid. cbv zeta.
  rewrite (generate_returned llm st h content Hllm).
  rewrite (sanitize_clean content Hclean), Hvalid. cbn [fst snd set_sql_query].
  split; [reflexivity|].
  destruct (valid_survives_reclean (strip content) Hvalid) as [Hne Hverb].
  set (st1 := merge st _).
  rewrite (execute_submits db st1 _ Hne Hverb). cbn [snd].
  change (sql_query st1) with (strip content).
  rewrite (reclean_clean content) by (apply Hclean; cbn; auto).
  rewrite <- app_assoc. reflexivity.
Qed.

Lemma clean_statement_reaches_store_witness :
  snd (execute_sql_node (db_fails_first 0 "[]")
         (merge (state_with_sql "")
            (fst (generate_sql_node (llm_always "  SELECT rice FROM crops; ")
                    (state_with_sql "") [])))
         (snd (generate_sql_node (llm_always "  SELECT rice FROM crops; ")
                 (state_with_sql "") [])))
  = [LLMInvoke (generation_prompt (state_with_sql ""));
     DBRun "SELECT rice FROM crops;"].
Proof.
  apply (clean_statement_reaches_store (llm_always "  SELECT rice FROM crops; ")
           (db_fails_first 0 "[]") (state_with_sql "") []
           "  SELECT rice FROM crops; " eq_refl).
  - intros tok Htok.
    repeat (destruct Htok as [<-|Htok]; [vm_compute; reflexivity|]).
    destruct Htok.
  - vm_compute. reflexivity.
Defined.

(** X11: white space around the model's text has no effect on what
    Generation makes of it: padding the text on either side leaves the
    sanitized SQL, and so the whole update, unchanged; and the sanitized
    SQL itself never begins or ends with white space. *)
Theorem padding_is_ignored (w1 w2 s : string) (st : AgentState) (h : history) :
  all_space w1 = true -> all_space w2 = true ->
  sanitize_sql (strip (w1 ++ s ++ w2)) = sanitize_sql (strip s)
  /\ strip (sanitize_sql (strip s)) = sanitize_sql (strip s)
  /\ fst (generate_sql_node (llm_always (w1 ++ s ++ w2)) st h)
     = fst (generate_sql_node (llm_always s) st h).
Proof.
  intros H1 H2.
  assert (strip (w1 ++ s ++ w2) = strip s) as E by (apply strip_padded; assumption).
  split; [rewrite E; reflexivity|]. split.
  - rewrite sanitize_sql_strip. apply strip_idempotent.
  - rewrite (generate_returned (llm_always (w1 ++ s ++ w2)) st h _ eq_refl).
    rewrite (generate_returned (llm_always s) st h _ eq_refl).
    rewrite E. reflexivity.
Qed.

Lemma padding_is_ignored_witness :
  sanitize_sql (strip (nl ++ "SELECT rice FROM crops;" ++ "  "))
  = sanitize_sql (strip "SELECT rice FROM crops;").
Proof.
  apply (padding_is_ignored nl "  " "SELECT rice FROM crops;"
           (state_with_sql "") []); reflexivity.
Defined.

Section LastResult.

Variable llm : history -> string -> outcome.
Variable db : history -> string -> outcome.

Lemma decide_synthesize_below_budget (st st' : AgentState) :
  should_continue_or_retry st = Ok (synthesize, st') ->
  (retries st < 3)%Z ->
  exists d, data st = Some d /\ str_in "Error:" d = false.
Proof.
  unfold should_continue_or_retry. intros D Hlt.
  destruct (Z.geb_spec (retries st) 3) as [|_]; [lia|].
  destruct (data st) as [d|]; [|discriminate].
  destruct (str_in "Error:" d) eqn:E; [discriminate|].
  exists d. split; [reflexivity | exact E].
Qed.

(** When the engine drops the edge's assignment, [retries] never moves,
    and a run that reaches END does so on a result without the marker. *)
Lemma run_without_increment (limit : nat) :
  forall (n : node) (st : AgentState) (h : history),
    (retries st < 3)%Z ->
    (n = synthesize_answer ->
     exists d, data st = Some d /\ str_in "Error:" d = false) ->
    Forall (fun s => retries (after s) = retries st)
           (fst (fst (run llm db ChannelCopy limit n st h)))
    /\ forall final,
        snd (fst (run llm db ChannelCopy limit n st h)) = Finished final ->
        exists d, data final = Some d /\ str_in "Error:" d = false.
Proof.
  induction limit as [|limit IH]; intros n st h Hlt Hdata.
  - rewrite run_out_of_steps. split; [constructor | discriminate].
  - destruct n.
    + destruct (generate_effect llm st h) as (u & E & K & _).
      apply merge_keeps_retries in K.
      rewrite (run_generate llm db ChannelCopy limit st h _ u E).
      cbv zeta. cbn [fst snd].
      destruct (IH execute_sql (merge st u)
                  (h ++ [LLMInvoke (generation_prompt st)])%list
                  ltac:(lia) ltac:(discriminate)) as [IH1 IH2].
      rewrite K in IH1.
      split; [constructor; [exact K | exact IH1] | exact IH2].
    + destruct (execute_effect db st h) as (u & h1 & E & _ & K & _).
      apply merge_keeps_retries in K.
      pose proof (edge_never_raises db st h) as (label & mutated & D).
      rewrite E in D. cbn [fst] in D.
      rewrite (run_execute llm db ChannelCopy limit st mutated h h1 u label E D).
      cbv zeta. cbn [fst snd].
      destruct (IH (match label with synthesize => synthesize_answer
                                | retry => generate_sql end)
                  (merge st u) h1 ltac:(lia)) as [IH1 IH2].
      { intros Hn. destruct label; [discriminate|].
        apply (decide_synthesize_below_budget _ _ D). lia. }
      rewrite K in IH1.
      split; [constructor; [exact K | exact IH1] | exact IH2].
    + pose proof (synthesize_calls_once llm st h) as S.
      rewrite (run_synthesize llm db ChannelCopy limit st h _ _ S).
      cbn [fst snd]. split.
      * constructor; [reflexivity | constructor].
      * destruct limit; [discriminate|]. intros final [= <-].
        apply (Hdata eq_refl).
Qed.

End LastResult.

(** X15: if the engine hands the edge a copy of the state, so that the
    edge's assignment is dropped, [retries] is 0 after every step of
    every run, and a run reaches END only on a result that does not hold
    the marker "Error:". *)
Theorem dropped_increment_never_counts
  (llm db : history -> string -> outcome) (DATABASE_SCHEMA : string)
  (limit : nat) (q : string) :
  Forall (fun s => retries (after s) = 0%Z)
         (fst (fst (stream llm db DATABASE_SCHEMA ChannelCopy limit q)))
  /\ forall final,
      snd (fst (stream llm db DATABASE_SCHEMA ChannelCopy limit q)) = Finished final ->
      exists d, data final = Some d /\ str_in "Error:" d = false.
Proof.
  unfold stream.
  apply (run_without_increment llm db limit generate_sql
           (inputs DATABASE_SCHEMA q) []); [cbn; lia | discriminate].
Qed.

(* ================================================================= *)
(** ** The retry counter in the loop as the engine runs it *)

(** C3, on the code: the edge's assignment to [retries] is dropped by the
    engine, so the budget test of the edge never applies.  For a model
    that always returns text failing SQL validation and any question,
    the run is sent back to Generation after every Execution, Synthesis
    never runs and no answer is written; the run stops only at the
    caller's ceiling, in [GraphRecursionError], having made every step
    the ceiling allows, every second one a Generation (5 at the caller's
    ceiling of 10), and the caller displays one of its own messages. *)
Theorem invalid_model_never_reaches_synthesis
  (llm db : history -> string -> outcome) (DATABASE_SCHEMA : string)
  (q error_str : string) (limit : nat) :
  (forall h p, exists t,
      llm h p = Returned t /\ invalid_sql (sanitize_sql (strip t)) = true) ->
  snd (fst (stream llm db DATABASE_SCHEMA ChannelCopy limit q)) = GraphRecursionError
  /\ map ran (fst (fst (stream llm db DATABASE_SCHEMA ChannelCopy limit q)))
     = ping_pong generate_sql limit
  /\ invocations generate_sql
       (fst (fst (stream llm db DATABASE_SCHEMA ChannelCopy limit q)))
     = Nat.div2 (S limit)
  /\ invocations synthesize_answer
       (fst (fst (stream llm db DATABASE_SCHEMA ChannelCopy limit q))) = 0
  /\ Forall (fun s => retries (after s) = 0%Z /\ answer (after s) = Some "")
            (fst (fst (stream llm db DATABASE_SCHEMA ChannelCopy limit q)))
  /\ count_DBRun (snd (stream llm db DATABASE_SCHEMA ChannelCopy limit q)) = 0
  /\ displayed_answer error_str
       (fst (stream llm db DATABASE_SCHEMA ChannelCopy limit q))
     = (if str_in "GraphRecursionError" error_str then DEPTH_EXCEEDED
        else if str_in "Connection refused" error_str then OLLAMA_UNREACHABLE
        else UNEXPECTED_ERROR ++ error_str).
Proof.
  intros Hllm. unfold stream. set (st := inputs DATABASE_SCHEMA q).
  assert (forall h p, match llm h p with
                      | Returned t => invalid_sql (sanitize_sql (strip t)) = true
                      | Raised _ => True
                      end) as Hnever.
  { intros h p. destruct (Hllm h p) as (t & -> & Hinv). exact Hinv. }
  destruct (invalid_model_loops llm db limit Hnever generate_sql st [])
    as (Hres & Hnodes & Hcount); [discriminate | cbn; lia | discriminate |].
  assert (invocations synthesize_answer
            (fst (fst (run llm db ChannelCopy limit generate_sql st []))) = 0)
    as Hsyn.
  { unfold invocations. rewrite Hnodes, ping_pong_no_synthesis; [reflexivity|].
    discriminate. }
  split; [exact Hres|]. split; [exact Hnodes|].
  split; [unfold invocations; rewrite Hnodes; apply ping_pong_generations|].
  split; [exact Hsyn|].
  split; [|split; [exact Hcount | unfold displayed_answer; rewrite Hres; reflexivity]].
  destruct (run_without_increment llm db limit generate_sql st [])
    as [Hret _]; [cbn; lia | discriminate |].
  pose proof (run_frame llm db ChannelCopy limit generate_sql st []) as Hframe.
  apply Forall_forall. intros s Hs.
  rewrite Forall_forall in Hret, Hframe.
  split; [apply (Hret s Hs)|].
  destruct (Hframe s Hs) as (_ & _ & Hans). apply Hans.
  intros Hsynth.
  assert (In (ran s) (filter (node_eqb synthesize_answer)
                        (map ran (fst (fst (run llm db ChannelCopy limit
                                              generate_sql st [])))))) as Hin.
  { apply filter_In. split; [apply in_map; exact Hs|].
    rewrite Hsynth. reflexivity. }
  rewrite Hnodes, ping_pong_no_synthesis in Hin; [destruct Hin | discriminate].
Qed.

Lemma invalid_model_never_reaches_synthesis_witness :
  snd (fst (stream (llm_always "not sql") (db_fails_first 0 "[]") ""
              ChannelCopy RECURSION_LIMIT "asdf;;;")) = GraphRecursionError
  /\ map ran (fst (fst (stream (llm_always "not sql") (db_fails_first 0 "[]") ""
                          ChannelCopy RECURSION_LIMIT "asdf;;;")))
     = [generate_sql; execute_sql; generate_sql; execute_sql; generate_sql;
        execute_sql; generate_sql; execute_sql; generate_sql; execute_sql]
  /\ invocations generate_sql
       (fst (fst (stream (llm_always "not sql") (db_fails_first 0 "[]") ""
                    ChannelCopy RECURSION_LIMIT "asdf;;;"))) = 5
  /\ displayed_answer
       "Recursion limit of 10 reached without hitting a stop condition."
       (fst (stream (llm_always "not sql") (db_fails_first 0 "[]") ""
               ChannelCopy RECURSION_LIMIT "asdf;;;"))
     = UNEXPECTED_ERROR
       ++ "Recursion limit of 10 reached without hitting a stop condition.".
Proof.
  destruct (invalid_model_never_reaches_synthesis (llm_always "not sql")
              (db_fails_first 0 "[]") "" "asdf;;;"
              "Recursion limit of 10 reached without hitting a stop condition."
              RECURSION_LIMIT)
    as (Hres & Hnodes & Hgen & _ & _ & _ & Hshown).
  - intros h p. exists "not sql". split; reflexivity.
  - split; [exact Hres|]. split; [rewrite Hnodes; reflexivity|].
    split; [rewrite Hgen; reflexivity|].
    rewrite Hshown. reflexivity.
Defined.

(** C7, on the code: with a store that raises on its first two
    executions and answers the third with the rows, and a model that
    produces valid SQL at every generation, the run has three
    Generations, three Executions and one Synthesis on the rows, but
    [retries] is 0 in every update, after every step and in the final
    state: the two assignments [state["retries"] = retries + 1] made by
    the edge, each to 1, are dropped by the engine. *)
Theorem store_recovery_leaves_retries_at_0 :
  let r := stream (llm_scripted "SELECT state, year, rice FROM crops;"
                     "Bihar produced 500 tonnes of rice in 2010.")
             (db_fails_first 2 "[('Bihar', 2010, 500)]") "" ChannelCopy
             RECURSION_LIMIT "Rice in Bihar in 2010?" in
  map ran (fst (fst r))
  = [generate_sql; execute_sql; generate_sql; execute_sql;
     generate_sql; execute_sql; synthesize_answer]
  /\ invocations generate_sql (fst (fst r)) = 3
  /\ invocations execute_sql (fst (fst r)) = 3
  /\ invocations synthesize_answer (fst (fst r)) = 1
  /\ map (fun s => set_retries (returned s)) (fst (fst r))
     = [Some 0%Z; Some 0%Z; Some 0%Z; Some 0%Z; Some 0%Z; Some 0%Z; Some 0%Z]
  /\ map (fun s => retries (after s)) (fst (fst r))
     = [0%Z; 0%Z; 0%Z; 0%Z; 0%Z; 0%Z; 0%Z]
  /\ map (fun s => data (after s)) (fst (fst r))
     = [Some ""; Some "Error: no such table: crops";
        Some "Error: no such table: crops"; Some "Error: no such table: crops";
        Some "Error: no such table: crops"; Some "[('Bihar', 2010, 500)]";
        Some "[('Bihar', 2010, 500)]"]
  /\ snd (fst r)
     = Finished {| question := "Rice in Bihar in 2010?"; schema := "";
                   sql_query := "SELECT state, year, rice FROM crops;";
                   data := Some "[('Bihar', 2010, 500)]";
                   answer := Some "Bihar produced 500 tonnes of rice in 2010.";
                   retries := 0 |}
  /\ count_DBRun (snd r) = 3
  /\ should_continue_or_retry
       {| question := "Rice in Bihar in 2010?"; schema := "";
          sql_query := "SELECT state, year, rice FROM crops;";
          data := Some "Error: no such table: crops";
          answer := Some ""; retries := 0 |}
     = Ok (retry,
           {| question := "Rice in Bihar in 2010?"; schema := "";
              sql_query := "SELECT state, year, rice FROM crops;";
              data := Some "Error: no such table: crops";
              answer := Some ""; retries := 1 |}).
Proof. cbv zeta. repeat split; vm_compute; reflexivity. Qed.

(** C9: each of the generation, execution and synthesis nodes returns the
    [retries] of its input state, whatever the collaborators answer, and
    writing its update leaves [retries] as it was.  The retry decision is
    the only place where [retries] changes: on the retry branch the state
    it leaves has [retries] greater by exactly 1 and every other field
    as before, and on the synthesis branch it leaves the state alone.
    Hence [retries] never goes down along a run of the graph, under
    either treatment of the edge's assignment. *)
Theorem retries_frame
  (llm db : history -> string -> outcome) (st : AgentState) (h : history) :
  (set_retries (fst (generate_sql_node llm st h)) = Some (retries st)
   /\ retries (merge st (fst (generate_sql_node llm st h))) = retries st)
  /\ (set_retries (fst (execute_sql_node db st h)) = Some (retries st)
      /\ retries (merge st (fst (execute_sql_node db st h))) = retries st)
  /\ (set_retries (fst (synthesize_answer_node llm st h)) = Some (retries st)
      /\ retries (merge st (fst (synthesize_answer_node llm st h))) = retries st)
  /\ (forall label st',
        should_continue_or_retry st = Ok (label, st') ->
        (label = retry
         /\ retries st' = (retries st + 1)%Z
         /\ st' = assign_retries st (retries st + 1)
         /\ question st' = question st /\ schema st' = schema st
         /\ sql_query st' = sql_query st /\ data st' = data st
         /\ answer st' = answer st)
        \/ (label = synthesize /\ retries st' = retries st /\ st' = st))
  /\ forall (eng : engine) (limit : nat) (n : node),
      climbs (retries st)
             (map (fun s => retries (after s))
                  (fst (fst (run llm db eng limit n st h))))
      /\ StronglySorted Z.le
           (retries st
            :: map (fun s => retries (after s))
                 (fst (fst (run llm db eng limit n st h)))).
Proof.
  split; [split; [apply generate_keeps_retries
                 | apply merge_keeps_retries, generate_keeps_retries]|].
  split; [split; [apply execute_keeps_retries
                 | apply merge_keeps_retries, execute_keeps_retries]|].
  split; [split; [apply synthesize_keeps_retries
                 | apply merge_keeps_retries, synthesize_keeps_retries]|].
  split.
  - intros label st' D.
    destruct (decide_cases _ _ _ D) as [[-> ->]|(-> & -> & _)].
    + right. repeat split.
    + left. repeat split.
  - intros eng limit n. pose proof (run_climbs llm db eng limit n st h) as H.
    split; [exact H | apply climbs_sorted; exact H].
Qed.

Lemma retries_frame_witness :
  exists st',
    should_continue_or_retry (state_with_data "Error: no such table: crops" 1)
    = Ok (retry, st')
    /\ retries st' = 2%Z
    /\ data st' = Some "Error: no such table: crops".
Proof.
  eexists. split; [vm_compute; reflexivity|].
  destruct (proj1 (proj2 (proj2 (proj2
              (retries_frame (llm_always "not sql") (db_fails_first 0 "[]")
                 (state_with_data "Error: no such table: crops" 1) []))))
              retry _ eq_refl)
    as [(_ & Hr & _ & _ & _ & _ & Hd & _)|(Hl & _)]; [|discriminate Hl].
  split; [exact Hr | exact Hd].
Defined.

(* ================================================================= *)
(** ** Further properties of a run *)

Section RunBounds.

Variable llm : history -> string -> outcome.
Variable db : history -> string -> outcome.

(** On a walk of the graph Generation and Execution alternate, and
    Synthesis comes at most once, after an Execution. *)
Lemma walk_counts (path : list node) :
  forall n : node,
    walk n path = true ->
    match n with
    | generate_sql =>
        List.length (filter (node_eqb execute_sql) path)
        <= List.length (filter (node_eqb generate_sql) path)
        /\ List.length (filter (node_eqb generate_sql) path)
           + List.length (filter (node_eqb synthesize_answer) path)
           <= List.length (filter (node_eqb execute_sql) path) + 1
    | execute_sql =>
        List.length (filter (node_eqb execute_sql) path)
        <= List.length (filter (node_eqb generate_sql) path) + 1
        /\ List.length (filter (node_eqb generate_sql) path)
           + List.length (filter (node_eqb synthesize_answer) path)
           <= List.length (filter (node_eqb execute_sql) path)
    | synthesize_answer =>
        List.length (filter (node_eqb generate_sql) path) = 0
        /\ List.length (filter (node_eqb execute_sql) path) = 0
        /\ List.length (filter (node_eqb synthesize_answer) path) <= 1
    end.
Proof.
  induction path as [|m rest IH]; intros n Hw.
  - destruct n; cbn; lia.
  - cbn [walk] in Hw. apply andb_true_iff in Hw as [Hn Hrest].
    assert (n = m) as -> by (destruct n, m; try discriminate; reflexivity).
    destruct rest as [|k rest'].
    + destruct m; cbn; lia.
    + apply andb_true_iff in Hrest as [He Hk]. specialize (IH k Hk).
      destruct m, k; try discriminate He;
        cbn [filter node_eqb List.length] in IH |- *; lia.
Qed.

(** A run that reaches END went through Execution just before
    Synthesis: the last two steps are an Execution, whose state
    Synthesis read, and the Synthesis that made the last call. *)
Lemma run_last_execution (eng : engine) (limit : nat) :
  forall (n : node) (st : AgentState) (h : history) (final : AgentState),
    n <> synthesize_answer ->
    snd (fst (run llm db eng limit n st h)) = Finished final ->
    exists tr e s st_e hq h1,
      fst (fst (run llm db eng limit n st h)) = (tr ++ [e; s])%list
      /\ ran e = execute_sql /\ ran s = synthesize_answer
      /\ execute_sql_node db st_e hq = (returned e, h1)
      /\ after e = merge st_e (returned e)
      /\ synthesize_answer_node llm (after e) h1
         = (returned s, snd (run llm db eng limit n st h))
      /\ after s = merge (after e) (returned s)
      /\ after s = final.
Proof.
  induction limit as [|limit IH]; intros n st h final Hn Hfin.
  - rewrite run_out_of_steps in Hfin. discriminate.
  - destruct n; [| |congruence].
    + destruct (generate_sql_node llm st h) as [u h1] eqn:E.
      rewrite (run_generate llm db eng limit st h h1 u E) in Hfin |- *.
      cbv zeta in Hfin |- *. cbn [fst snd] in Hfin |- *.
      destruct (IH execute_sql (merge st u) h1 final ltac:(discriminate) Hfin)
        as (tr & e & s & st_e & hq & h2 & Htr & He & Hs & Hx & Hae & Hy & Has & Hf).
      exists (mkStep generate_sql u (merge st u) :: tr), e, s, st_e, hq, h2.
      rewrite Htr. split; [reflexivity|].
      split; [exact He|]. split; [exact Hs|]. split; [exact Hx|].
      split; [exact Hae|]. split; [exact Hy|]. split; [exact Has | exact Hf].
    + destruct (execute_sql_node db st h) as [u h1] eqn:E.
      pose proof (edge_never_raises db st h) as (label & mutated & D).
      rewrite E in D. cbn [fst] in D.
      rewrite (run_execute llm db eng limit st mutated h h1 u label E D)
        in Hfin |- *.
      cbv zeta in Hfin |- *. cbn [fst snd] in Hfin |- *.
      destruct (decide_cases _ _ _ D) as [[-> ->] | (-> & _)].
      * assert (match eng with
                | SharedState => merge st u
                | ChannelCopy => merge st u
                end = merge st u) as Heng by (destruct eng; reflexivity).
        rewrite Heng in Hfin |- *.
        destruct limit as [|limit'];
          [rewrite run_out_of_steps in Hfin; discriminate|].
        pose proof (synthesize_calls_once llm (merge st u) h1) as S.
        rewrite (run_synthesize llm db eng limit' _ _ _ _ S) in Hfin |- *.
        cbn [fst snd] in Hfin |- *.
        destruct limit' as [|limit'']; [discriminate|].
        injection Hfin as <-.
        eexists [], (mkStep execute_sql u (merge st u)),
          (mkStep synthesize_answer _ _), st, h, h1.
        cbn [app ran returned after].
        split; [reflexivity|]. split; [reflexivity|]. split; [reflexivity|].
        split; [exact E|]. split; [reflexivity|]. split; [exact S|].
        split; reflexivity.
      * destruct (IH generate_sql
                    (match eng with
                     | SharedState => mutated
                     | ChannelCopy => merge st u
                     end) h1 final ltac:(discriminate) Hfin)
          as (tr & e & s & st_e & hq & h2 & Htr & He & Hs & Hx & Hae & Hy & Has & Hf).
        eexists (mkStep execute_sql u _ :: tr), e, s, st_e, hq, h2.
        rewrite Htr. split; [reflexivity|].
        split; [exact He|]. split; [exact Hs|]. split; [exact Hx|].
        split; [exact Hae|]. split; [exact Hy|]. split; [exact Has | exact Hf].
Qed.

End RunBounds.

(** X1: when the model cannot be reached, so that every call to it
    raises, a question is never answered by Synthesis: each Generation
    stores no SQL, each Execution refuses without touching the store,
    and the edge, whose count of retries the engine drops, sends the run
    back to Generation until the caller's ceiling stops it in
    [GraphRecursionError].  The model is called once for every
    Generation step, that is for every second step the ceiling allows. *)
Theorem unreachable_model_exhausts_ceiling
  (llm db : history -> string -> outcome) (DATABASE_SCHEMA : string)
  (q : string) (limit : nat) :
  (forall h p, exists detail, llm h p = Raised detail) ->
  snd (fst (stream llm db DATABASE_SCHEMA ChannelCopy limit q)) = GraphRecursionError
  /\ map ran (fst (fst (stream llm db DATABASE_SCHEMA ChannelCopy limit q)))
     = ping_pong generate_sql limit
  /\ invocations generate_sql
       (fst (fst (stream llm db DATABASE_SCHEMA ChannelCopy limit q)))
     = Nat.div2 (S limit)
  /\ invocations synthesize_answer
       (fst (fst (stream llm db DATABASE_SCHEMA ChannelCopy limit q))) = 0
  /\ count_LLMInvoke (snd (stream llm db DATABASE_SCHEMA ChannelCopy limit q))
     = Nat.div2 (S limit)
  /\ count_DBRun (snd (stream llm db DATABASE_SCHEMA ChannelCopy limit q)) = 0.
Proof.
  intros Hdown. unfold stream. set (st := inputs DATABASE_SCHEMA q).
  assert (forall h p, match llm h p with
                      | Returned t => invalid_sql (sanitize_sql (strip t)) = true
                      | Raised _ => True
                      end) as Hnever.
  { intros h p. destruct (Hdown h p) as (detail & ->). exact I. }
  destruct (invalid_model_loops llm db limit Hnever generate_sql st [])
    as (Hres & Hnodes & Hcount); [discriminate | cbn; lia | discriminate |].
  assert (invocations generate_sql
            (fst (fst (run llm db ChannelCopy limit generate_sql st [])))
          = Nat.div2 (S limit)) as Hgen.
  { unfold invocations. rewrite Hnodes. apply ping_pong_generations. }
  assert (invocations synthesize_answer
            (fst (fst (run llm db ChannelCopy limit generate_sql st []))) = 0)
    as Hsyn.
  { unfold invocations. rewrite Hnodes, ping_pong_no_synthesis; [reflexivity|].
    discriminate. }
  split; [exact Hres|]. split; [exact Hnodes|]. split; [exact Hgen|].
  split; [exact Hsyn|]. split; [|exact Hcount].
  destruct (run_calls llm db ChannelCopy limit generate_sql st [])
    as (added & Hh & Hl & _); [discriminate|].
  rewrite Hh. cbn [app]. rewrite Hl, Hgen, Hsyn. lia.
Qed.

Lemma unreachable_model_exhausts_ceiling_witness :
  snd (fst (stream (llm_down "Connection refused") (db_fails_first 0 "[]") ""
              ChannelCopy RECURSION_LIMIT "Rice in Bihar?")) = GraphRecursionError
  /\ count_LLMInvoke
       (snd (stream (llm_down "Connection refused") (db_fails_first 0 "[]") ""
               ChannelCopy RECURSION_LIMIT "Rice in Bihar?")) = 5
  /\ count_DBRun
       (snd (stream (llm_down "Connection refused") (db_fails_first 0 "[]") ""
               ChannelCopy RECURSION_LIMIT "Rice in Bihar?")) = 0.
Proof.
  destruct (unreachable_model_exhausts_ceiling (llm_down "Connection refused")
              (db_fails_first 0 "[]") "" "Rice in Bihar?" RECURSION_LIMIT)
    as (Hres & _ & _ & _ & Hllm & Hdb).
  - intros h p. exists "Connection refused". reflexivity.
  - split; [exact Hres|]. split; [rewrite Hllm; reflexivity | exact Hdb].
Defined.

(** X2: under either treatment of the edge's assignment, the steps of a
    run follow the edges of the compiled graph from its entry point:
    Generation is always followed by Execution, Execution by Generation
    or Synthesis, and nothing follows Synthesis.  A run never takes more
    steps than the ceiling.  One that ends normally took fewer steps
    than the ceiling and ends on the single Synthesis step, whose state
    is the final state.  One that the ceiling stops took exactly as many
    steps as the ceiling, with Synthesis either absent or its last step.
    The edge never raises. *)
Theorem trace_follows_graph
  (llm db : history -> string -> outcome) (DATABASE_SCHEMA : string)
  (eng : engine) (limit : nat) (q : string) :
  walk generate_sql
       (map ran (fst (fst (stream llm db DATABASE_SCHEMA eng limit q)))) = true
  /\ List.length (fst (fst (stream llm db DATABASE_SCHEMA eng limit q))) <= limit
  /\ (forall final,
        snd (fst (stream llm db DATABASE_SCHEMA eng limit q)) = Finished final ->
        List.length (fst (fst (stream llm db DATABASE_SCHEMA eng limit q))) < limit
        /\ exists tr s,
            fst (fst (stream llm db DATABASE_SCHEMA eng limit q)) = (tr ++ [s])%list
            /\ ran s = synthesize_answer /\ after s = final
            /\ invocations synthesize_answer tr = 0)
  /\ (snd (fst (stream llm db DATABASE_SCHEMA eng limit q)) = GraphRecursionError ->
      List.length (fst (fst (stream llm db DATABASE_SCHEMA eng limit q))) = limit
      /\ (invocations synthesize_answer
            (fst (fst (stream llm db DATABASE_SCHEMA eng limit q))) = 0
          \/ exists tr s,
              fst (fst (stream llm db DATABASE_SCHEMA eng limit q)) = (tr ++ [s])%list
              /\ ran s = synthesize_answer
              /\ invocations synthesize_answer tr = 0))
  /\ (forall msg,
        snd (fst (stream llm db DATABASE_SCHEMA eng limit q)) <> EdgeRaised msg).
Proof.
  unfold stream.
  destruct (run_shape llm db eng limit generate_sql (inputs DATABASE_SCHEMA q) [])
    as (Hw & Hl & Hres).
  split; [exact Hw|]. split; [exact Hl|]. split; [|split].
  - intros final Hfin. rewrite Hfin in Hres.
    destruct Hres as (Hlt & tr & s & Htr & Hs & Hf & Hn & _).
    split; [exact Hlt|]. exists tr, s.
    split; [exact Htr|]. split; [exact Hs|]. split; [exact Hf | exact Hn].
  - intros Hrec. rewrite Hrec in Hres. exact Hres.
  - intros msg Hmsg. rewrite Hmsg in Hres. exact Hres.
Qed.

(** X13: the caller's ceiling bounds what a question can cost, under
    either treatment of the edge's assignment: of the steps the ceiling
    allows at most every second one is a Generation and at most every
    second one an Execution, Synthesis runs at most once, and so the
    model is called at most [(limit + 1) / 2] times and the store at
    most [limit / 2] times (5 and 5 at the caller's ceiling of 10). *)
Theorem calls_bounded_by_ceiling
  (llm db : history -> string -> outcome) (DATABASE_SCHEMA : string)
  (eng : engine) (limit : nat) (q : string) :
  2 * invocations generate_sql
        (fst (fst (stream llm db DATABASE_SCHEMA eng limit q))) <= limit + 1
  /\ 2 * invocations execute_sql
           (fst (fst (stream llm db DATABASE_SCHEMA eng limit q))) <= limit
  /\ invocations synthesize_answer
       (fst (fst (stream llm db DATABASE_SCHEMA eng limit q))) <= 1
  /\ 2 * count_LLMInvoke (snd (stream llm db DATABASE_SCHEMA eng limit q))
     <= limit + 1
  /\ 2 * count_DBRun (snd (stream llm db DATABASE_SCHEMA eng limit q)) <= limit.
Proof.
  unfold stream. set (st := inputs DATABASE_SCHEMA q).
  destruct (run_shape llm db eng limit generate_sql st []) as (Hw & Hl & _).
  apply walk_counts in Hw. cbv beta iota in Hw. destruct Hw as [He Hg].
  pose proof (length_invocations
                (fst (fst (run llm db eng limit generate_sql st [])))) as Hlen.
  destruct (run_calls llm db eng limit generate_sql st [])
    as (added & Hh & Hm & Hd & _); [discriminate|].
  rewrite Hh. cbn [app]. unfold invocations in *. lia.
Qed.

(** X14: when a run ends normally, the answer is the model's summary of
    rows the store returned for the final query.  The last two steps
    are an Execution and the Synthesis; the last two calls of the run
    are the store's execution of the re-cleaned [sql_query] of the final
    state and the model's synthesis call, whose prompt is built from the
    state that Execution left; the store returned, on that call, the
    [data] of the final state, which does not hold the marker "Error:";
    and the [answer] is what the model made of that prompt. *)
Theorem final_result_comes_from_execution
  (llm db : history -> string -> outcome) (DATABASE_SCHEMA : string)
  (limit : nat) (q : string) (final : AgentState) :
  snd (fst (stream llm db DATABASE_SCHEMA ChannelCopy limit q)) = Finished final ->
  exists tr e s hq rows,
    fst (fst (stream llm db DATABASE_SCHEMA ChannelCopy limit q))
    = (tr ++ [e; s])%list
    /\ ran e = execute_sql /\ ran s = synthesize_answer /\ after s = final
    /\ snd (stream llm db DATABASE_SCHEMA ChannelCopy limit q)
       = (hq ++ [DBRun (reclean_sql (sql_query final));
                 LLMInvoke (synthesis_prompt (after e))])%list
    /\ db hq (reclean_sql (sql_query final)) = Returned rows
    /\ set_data (returned e) = Some rows
    /\ data (after e) = Some rows
    /\ data final = Some rows
    /\ str_in "Error:" rows = false
    /\ set_answer (returned s) = answer final
    /\ answer final
       = Some match llm (hq ++ [DBRun (reclean_sql (sql_query final))])%list
                        (synthesis_prompt (after e)) with
              | Returned content => strip content
              | Raised detail => "Error synthesizing answer: " ++ detail
              end.
Proof.
  intros Hfin. unfold stream in Hfin |- *.
  set (st := inputs DATABASE_SCHEMA q) in Hfin |- *.
  destruct (run_last_execution llm db ChannelCopy limit generate_sql st [] final
              ltac:(discriminate) Hfin)
    as (tr & e & s & st_e & hq & h1 & Htr & He & Hs & Hx & Hae & Hy & Has & Hf).
  destruct (run_without_increment llm db limit generate_sql st [])
    as [_ Hclean]; [cbn; lia | discriminate |].
  destruct (Hclean final Hfin) as (d & Hd & Hno).
  rewrite synthesize_calls_once in Hy. injection Hy as Hret Hhist.
  assert (data final = data (after e)
          /\ sql_query final = sql_query (after e)
          /\ answer final = set_answer (returned s)) as (Hdf & Hqf & Haf).
  { rewrite <- Hf, Has, <- Hret. unfold merge. cbn. auto. }
  assert (sql_query (after e) = sql_query st_e) as Hqe.
  { rewrite Hae. destruct (execute_effect db st_e hq)
      as (u & h2 & Hx' & _ & _ & _ & Hnone & _).
    rewrite Hx in Hx'. injection Hx' as <- _.
    unfold merge. cbn [sql_query]. rewrite Hnone. reflexivity. }
  assert (data (after e) = set_data (returned e)) as Hde.
  { rewrite Hae. destruct (execute_effect db st_e hq)
      as (u & h2 & Hx' & _ & _ & _ & _ & d' & Hsome).
    rewrite Hx in Hx'. injection Hx' as <- _.
    unfold merge. cbn [data]. rewrite Hsome. reflexivity. }
  rewrite Hdf, Hde in Hd.
  destruct (String.eqb_spec (sql_query st_e) "") as [Hempty|Hne].
  { rewrite (execute_no_sql db st_e hq Hempty) in Hx. injection Hx as Hu _.
    rewrite <- Hu in Hd. cbn [set_data] in Hd. injection Hd as <-.
    discriminate Hno. }
  destruct (startswith_any (lower (reclean_sql (sql_query st_e))) SQL_VERBS)
    eqn:Hverb.
  2:{ rewrite (execute_bad_prefix db st_e hq Hne Hverb) in Hx.
      injection Hx as Hu _.
      rewrite <- Hu in Hd. cbn [set_data] in Hd. injection Hd as <-.
      discriminate Hno. }
  rewrite (execute_submits db st_e hq Hne Hverb) in Hx. injection Hx as Hu Hh1.
  rewrite <- Hu in Hd. cbn [set_data] in Hd. injection Hd as Hd.
  destruct (db hq (reclean_sql (sql_query st_e))) as [rows|detail] eqn:Hdb.
  2:{ assert (str_in "Error:" d = true) as Hyes by (rewrite <- Hd; reflexivity).
      congruence. }
  subst d.
  exists tr, e, s, hq, rows.
  rewrite Hqf, Hqe.
  split; [exact Htr|]. split; [exact He|]. split; [exact Hs|].
  split; [exact Hf|].
  split; [rewrite <- Hhist, <- Hh1, <- app_assoc; reflexivity|].
  split; [exact Hdb|].
  split; [rewrite <- Hu; reflexivity|].
  split; [rewrite Hde, <- Hu; reflexivity|].
  split; [rewrite Hdf, Hde, <- Hu; reflexivity|].
  split; [exact Hno|].
  split; [symmetry; exact Haf|].
  rewrite Haf, <- Hret, <- Hh1. reflexivity.
Qed.

Lemma final_result_comes_from_execution_witness :
  exists final hq,
    snd (fst (stream (llm_scripted "SELECT state, year, rice FROM crops;"
                        "Bihar produced 500 tonnes of rice in 2010.")
                (db_fails_first 2 "[('Bihar', 2010, 500)]") "" ChannelCopy
                RECURSION_LIMIT "Rice in Bihar in 2010?")) = Finished final
    /\ db_fails_first 2 "[('Bihar', 2010, 500)]" hq
         (reclean_sql (sql_query final)) = Returned "[('Bihar', 2010, 500)]"
    /\ data final = Some "[('Bihar', 2010, 500)]".
Proof.
  destruct (final_result_comes_from_execution
              (llm_scripted "SELECT state, year, rice FROM crops;"
                 "Bihar produced 500 tonnes of rice in 2010.")
              (db_fails_first 2 "[('Bihar', 2010, 500)]") "" RECURSION_LIMIT
              "Rice in Bihar in 2010?" _ ltac:(vm_compute; reflexivity))
    as (tr & e & s & hq & rows & _ & _ & _ & _ & _ & Hdb & _ & _ & Hd & _).
  cbn [data] in Hd. injection Hd as <-.
  eexists _, hq. split; [vm_compute; reflexivity|].
  split; [exact Hdb | reflexivity].
Defined.
